(** * E-Commerce backend (main.py): document persistence and validation layer

    A shallow embedding of the request handlers of [main.py] and of the
    library operations they call, followed by the properties of the
    specification that concern them.

    Python values are modelled by the inductive type [value]; a Python
    [dict] is an association list in insertion order; the database is a
    finite map from collection names to lists of documents; handlers are
    functions in a state-and-exception monad over the process-wide
    database handle [db]. *)

From Stdlib Require Import ZArith NArith String Ascii Lia.
From Stdlib.Strings Require Import Byte.
From Stdlib.Numbers Require Import DecimalString.
From stdpp Require Import gmap strings list.

Open Scope string_scope.

Set Warnings "-register-all".

(** ** Python values *)

(** The 12-byte native identifier of the store ([bson.ObjectId]); the
    field is the object's [binary] attribute. *)
Record ObjectId := mkObjectId { binary : list byte }.

(** A float is carried by its [repr] (for instance ["699.0"]): the program
    never computes with one. *)
Inductive value :=
| VNone
| VBool (b : bool)
| VInt (z : Z)
| VFloat (repr : string)
| VStr (s : string)
| VObjectId (o : ObjectId)
| VList (l : list value)
| VDict (d : list (string * value)).

(** A Python [dict] with [str] keys, in insertion order. *)
Definition dict := list (string * value).

#[global] Instance byte_eq_dec : EqDecision byte := Byte.byte_eq_dec.

#[global] Instance ObjectId_eq_dec : EqDecision ObjectId.
Proof. solve_decision. Defined.

Fixpoint value_eqb (v w : value) {struct v} : bool :=
  match v, w with
  | VNone, VNone => true
  | VBool a, VBool b => Bool.eqb a b
  | VInt a, VInt b => Z.eqb a b
  | VFloat a, VFloat b => String.eqb a b
  | VStr a, VStr b => String.eqb a b
  | VObjectId a, VObjectId b => bool_decide (a = b)
  | VList a, VList b =>
      (fix go (a b : list value) {struct a} : bool :=
         match a, b with
         | [], [] => true
         | x :: a', y :: b' => value_eqb x y && go a' b'
         | _, _ => false
         end) a b
  | VDict a, VDict b =>
      (fix go (a b : list (string * value)) {struct a} : bool :=
         match a, b with
         | [], [] => true
         | (k, x) :: a', (k', y) :: b' =>
             String.eqb k k' && value_eqb x y && go a' b'
         | _, _ => false
         end) a b
  | _, _ => false
  end.

(** *** Dictionary operations *)

Module Dict.

(** [d.get(k)] *)
Fixpoint get (k : string) (d : dict) : option value :=
  match d with
  | [] => None
  | (k', v) :: d' => if String.eqb k k' then Some v else get k d'
  end.

(** [k in d] *)
Definition contains (k : string) (d : dict) : bool :=
  match get k d with Some _ => true | None => false end.

(** [del d[k]]: the entry of key [k] leaves the dictionary. *)
Fixpoint remove (k : string) (d : dict) : dict :=
  match d with
  | [] => []
  | (k', v) :: d' =>
      if String.eqb k k' then remove k d' else (k', v) :: remove k d'
  end.

(** [d[k] = v]: an existing key keeps its position, a new one goes last. *)
Fixpoint set (k : string) (v : value) (d : dict) : dict :=
  match d with
  | [] => [(k, v)]
  | (k', v') :: d' =>
      if String.eqb k k' then (k', v) :: remove k d'
      else (k', v') :: set k v d'
  end.

(** [d.pop(k)] when [k in d]: the value and the remaining dictionary. *)
Definition pop (k : string) (d : dict) : option (value * dict) :=
  match get k d with
  | Some v => Some (v, remove k d)
  | None => None
  end.

(** Truthiness of a dictionary: [bool(d)]. *)
Definition truthy (d : dict) : bool :=
  match d with [] => false | _ :: _ => true end.

End Dict.

(** ** Hexadecimal text of bytes

    Two characters for each byte, lower case when written, either case
    when read. *)

Definition hex_digit (n : N) : ascii :=
  match n with
  | 0 => "0" | 1 => "1" | 2 => "2" | 3 => "3" | 4 => "4" | 5 => "5"
  | 6 => "6" | 7 => "7" | 8 => "8" | 9 => "9" | 10 => "a" | 11 => "b"
  | 12 => "c" | 13 => "d" | 14 => "e" | _ => "f"
  end%N%char.

Definition hex_value (c : ascii) : option N :=
  let n := N_of_ascii c in
  if ((48 <=? n) && (n <=? 57))%N then Some (n - 48)%N
  else if ((97 <=? n) && (n <=? 102))%N then Some (n - 87)%N
  else if ((65 <=? n) && (n <=? 70))%N then Some (n - 55)%N
  else None.

Definition byte_hex (b : byte) : string :=
  let n := Byte.to_N b in
  String (hex_digit (n / 16)) (String (hex_digit (n mod 16)) "").

Fixpoint bytes_hex (bs : list byte) : string :=
  match bs with
  | [] => ""
  | b :: bs' => byte_hex b +:+ bytes_hex bs'
  end.

Fixpoint bytes_fromhex (s : string) : option (list byte) :=
  match s with
  | "" => Some []
  | String c1 (String c2 s') =>
      match hex_value c1, hex_value c2, bytes_fromhex s' with
      | Some hi, Some lo, Some bs =>
          match Byte.of_N (16 * hi + lo) with
          | Some b => Some (b :: bs)
          | None => None
          end
      | _, _, _ => None
      end
  | String _ "" => None
  end.

(** ** [str] and [repr] of values *)

Definition backslash : ascii := "092"%char.
Definition dquote : ascii := "034"%char.
Definition squote : ascii := "039"%char.

Definition contains_char (c : ascii) (s : string) : bool :=
  existsb (fun x => bool_decide (x = c)) (list_ascii_of_string s).

(** The quote [repr] puts around a string: a double quote when the string
    holds a single quote and no double quote, a single quote otherwise. *)
Definition repr_quote (s : string) : ascii :=
  if contains_char squote s && negb (contains_char dquote s)
  then dquote else squote.

Definition repr_char (q c : ascii) : string :=
  let n := N_of_ascii c in
  if bool_decide (c = q) then String backslash (String q "")
  else if (n =? 92)%N then String backslash (String backslash "")
  else if (n =? 9)%N then String backslash "t"
  else if (n =? 10)%N then String backslash "n"
  else if (n =? 13)%N then String backslash "r"
  else if ((n <? 32) || (n =? 127))%N
       then String backslash
              (String "x" (String (hex_digit (n / 16))
                             (String (hex_digit (n mod 16)) "")))
  else String c "".

(** [repr] of a [str] whose characters outside ASCII are printable. *)
Definition repr_str (s : string) : string :=
  let q := repr_quote s in
  String q (String.concat "" (map (repr_char q) (list_ascii_of_string s)))
    +:+ String q "".

Definition repr_int (z : Z) : string := NilZero.string_of_int (Z.to_int z).

(** Modelled from the spec: [str] of a [bson.ObjectId], the encoding of
    section 4.1; the library is not part of the source tree.  The text is
    the lower-case hexadecimal form of the identifier's bytes. *)
Definition ObjectId_str (o : ObjectId) : string := bytes_hex (binary o).

Fixpoint py_repr (v : value) : string :=
  match v with
  | VNone => "None"
  | VBool true => "True"
  | VBool false => "False"
  | VInt z => repr_int z
  | VFloat r => r
  | VStr s => repr_str s
  | VObjectId o => "ObjectId('" +:+ ObjectId_str o +:+ "')"
  | VList l =>
      "[" +:+
      (fix go (l : list value) : string :=
         match l with
         | [] => ""
         | x :: l' =>
             match l' with
             | [] => py_repr x
             | _ :: _ => py_repr x +:+ ", " +:+ go l'
             end
         end) l +:+ "]"
  | VDict d =>
      "{" +:+
      (fix go (d : list (string * value)) : string :=
         match d with
         | [] => ""
         | (k, x) :: d' =>
             match d' with
             | [] => repr_str k +:+ ": " +:+ py_repr x
             | _ :: _ => repr_str k +:+ ": " +:+ py_repr x +:+ ", " +:+ go d'
             end
         end) d +:+ "}"
  end.

(** [str(v)] *)
Definition py_str (v : value) : string :=
  match v with
  | VStr s => s
  | VObjectId o => ObjectId_str o
  | _ => py_repr v
  end.

(** ** Exceptions *)

Inductive exn :=
| HTTPException (status_code : Z) (detail : string)
| InvalidId (msg : string)
| TypeError (msg : string)
| Exception (msg : string).

(** [str(e)] *)
Definition exn_str (e : exn) : string :=
  match e with
  | HTTPException c d => repr_int c +:+ ": " +:+ d
  | InvalidId m | TypeError m | Exception m => m
  end.

(** ** The identifier codec *)

(** The message of the library's [InvalidId]. *)
Definition invalid_id_msg (s : string) : string :=
  repr_str s +:+
  " is not a valid ObjectId, it must be a 12-byte input or a 24-character hex string".

(** Modelled from the spec: the constructor [bson.ObjectId] applied to a
    string, the decoding of section 4.1; the library, imported at line 6
    of [main.py], is not part of the source tree.  Decoding accepts the
    strings of the store's identifier shape, 24 hexadecimal characters,
    and fails with [InvalidId] (the MalformedIdentifier of the spec) on a
    wrong length or a wrong character set. *)
Definition ObjectId_of_str (s : string) : exn + ObjectId :=
  if (String.length s =? 24)%nat then
    match bytes_fromhex s with
    | Some bs => inr (mkObjectId bs)
    | None => inl (InvalidId (invalid_id_msg s))
    end
  else inl (InvalidId (invalid_id_msg s)).

(** The strings of the store's identifier shape. *)
Definition is_hex (c : ascii) : bool :=
  match hex_value c with Some _ => true | None => false end.

Definition id_shaped (s : string) : bool :=
  (String.length s =? 24)%nat && forallb is_hex (list_ascii_of_string s).

(** The identifiers the store produces: 12 bytes. *)
Definition native (o : ObjectId) : Prop := length (binary o) = 12%nat.

(** ** The database

    A database is a finite map from collection names to the documents of
    each collection, in insertion order.  Fresh identifiers come from a
    counter that stands for the generator of [ObjectId()]. *)

Record database := mkDatabase {
  collections : gmap string (list dict);
  oid_counter : N
}.

(** [db[name]]: a collection that was never written to is empty. *)
Definition collection (d : database) (name : string) : list dict :=
  default [] (collections d !! name).

Fixpoint be_bytes (k : nat) (n : N) : list byte :=
  match k with
  | O => []
  | S k' =>
      (be_bytes k' (n / 256) ++
       [match Byte.of_N (n mod 256) with Some b => b | None => x00 end])%list
  end.

(** [ObjectId()]: a new 12-byte identifier. *)
Definition ObjectId_new (n : N) : ObjectId := mkObjectId (be_bytes 12 n).

(** Exact-match filter of [find], [find_one] and [count_documents]. *)
Definition matches (flt : dict) (doc : dict) : bool :=
  forallb (fun '(k, v) =>
             match Dict.get k doc with
             | Some w => value_eqb v w
             | None => false
             end) flt.

(** The store assigns [_id] to a document that has none. *)
Definition assign_id (doc : dict) (n : N) : dict * N :=
  if Dict.contains "_id" doc then (doc, n)
  else (("_id", VObjectId (ObjectId_new n)) :: doc, (n + 1)%N).

Fixpoint assign_ids (docs : list dict) (n : N) : list dict * N :=
  match docs with
  | [] => ([], n)
  | doc :: docs' =>
      let '(doc1, n1) := assign_id doc n in
      let '(docs1, n2) := assign_ids docs' n1 in
      (doc1 :: docs1, n2)
  end.

Definition store_insert (d : database) (name : string) (docs : list dict)
  : database :=
  let '(docs1, n1) := assign_ids docs (oid_counter d) in
  {| collections :=
       <[name := (collection d name ++ docs1)%list]> (collections d);
     oid_counter := n1 |}.

(** ** Handlers as computations

    The state of a computation is the process-wide handle [db] ([None]
    when no connection was established) and the log of the operations sent
    to the store; a computation ends with a value or with an exception. *)

Inductive event :=
| EFindOne (coll : string) (flt : dict)
| EFind (coll : string) (flt : dict) (limit : Z)
| ECountDocuments (coll : string) (flt : dict)
| EInsertOne (coll : string) (doc : dict)
| EInsertMany (coll : string) (docs : list dict).

Definition is_write (e : event) : bool :=
  match e with
  | EInsertOne _ _ | EInsertMany _ _ => true
  | _ => false
  end.

Record world := mkWorld { db : option database; log : list event }.

Definition M (A : Type) : Type := world -> (exn + A) * world.

Definition ret {A} (a : A) : M A := fun w => (inr a, w).

Definition raise {A} (e : exn) : M A := fun w => (inl e, w).

Definition bind {A B} (m : M A) (k : A -> M B) : M B :=
  fun w =>
    match m w with
    | (inr a, w1) => k a w1
    | (inl e, w1) => (inl e, w1)
    end.

Definition try_except {A} (m : M A) (h : exn -> M A) : M A :=
  fun w =>
    match m w with
    | (inr a, w1) => (inr a, w1)
    | (inl e, w1) => h e w1
    end.

Definition lift {A} (r : exn + A) : M A :=
  match r with inl e => raise e | inr a => ret a end.

Notation "'let!' x ':=' m 'in' k" := (bind m (fun x => k))
  (at level 10, x name, m at level 100, k at level 200).

Notation "m '>>' k" := (bind m (fun _ => k))
  (at level 100, k at level 200, right associativity).

(** [db is None] *)
Definition db_is_None : M bool :=
  fun w => (inr (match db w with None => true | Some _ => false end), w).

Definition none_subscript : exn :=
  TypeError "'NoneType' object is not subscriptable".

(** A collection object is named by its collection. *)
Definition Collection := string.

(** [db[name]] *)
Definition db_getitem (name : string) : M Collection :=
  fun w =>
    match db w with
    | None => (inl none_subscript, w)
    | Some _ => (inr name, w)
    end.

Definition emit (e : event) (w : world) : world :=
  {| db := db w; log := (log w ++ [e])%list |}.

(** [c.find_one(flt)] *)
Definition find_one (c : Collection) (flt : dict) : M (option dict) :=
  fun w =>
    match db w with
    | None => (inl none_subscript, w)
    | Some d =>
        (inr (head (List.filter (matches flt) (collection d c))),
         emit (EFindOne c flt) w)
    end.

(** [c.count_documents(flt)] *)
Definition count_documents (c : Collection) (flt : dict) : M nat :=
  fun w =>
    match db w with
    | None => (inl none_subscript, w)
    | Some d =>
        (inr (length (List.filter (matches flt) (collection d c))),
         emit (ECountDocuments c flt) w)
    end.

(** [c.insert_many(docs)] *)
Definition insert_many (c : Collection) (docs : list dict) : M unit :=
  fun w =>
    match db w with
    | None => (inl none_subscript, w)
    | Some d =>
        (inr tt,
         {| db := Some (store_insert d c docs);
            log := (log w ++ [EInsertMany c docs])%list |})
    end.

Definition db_unavailable : exn := Exception "Database not available".

(** Modelled from the spec: [create_document] of [database.py], which is
    not part of the source tree.  Section 4.2, insert: assigns a new
    identifier, persists the document verbatim plus the identifier, and
    returns the identifier in native form; fails when no connection was
    established. *)
Definition create_document (name : string) (data : dict) : M ObjectId :=
  fun w =>
    match db w with
    | None => (inl db_unavailable, w)
    | Some d =>
        let oid := ObjectId_new (oid_counter d) in
        let doc := ("_id", VObjectId oid) :: data in
        (inr oid,
         {| db := Some {| collections :=
                            <[name := (collection d name ++ [doc])%list]>
                              (collections d);
                          oid_counter := (oid_counter d + 1)%N |};
            log := (log w ++ [EInsertOne name data])%list |})
    end.

(** Modelled from the spec: [get_documents] of [database.py], which is not
    part of the source tree.  Section 4.2, query: the documents that match
    every field of the filter exactly (an empty filter matches all), at
    most [limit] of them; fails when no connection was established.  The
    spec leaves the order of the result open: the model lists the matching
    documents in insertion order, one of the orders it allows. *)
Definition get_documents (name : string) (filter_dict : dict) (limit : Z)
  : M (list dict) :=
  fun w =>
    match db w with
    | None => (inl db_unavailable, w)
    | Some d =>
        (inr (take (Z.to_nat limit)
                (List.filter (matches filter_dict) (collection d name))),
         emit (EFind name filter_dict limit) w)
    end.

(** The two exception policies of the handlers: [except HTTPException:
    raise] followed by [except Exception as e: raise HTTPException(500,
    str(e))], and the second clause alone. *)
Definition reraise_http {A} (m : M A) : M A :=
  try_except m
    (fun e =>
       match e with
       | HTTPException _ _ => raise e
       | _ => raise (HTTPException 500 (exn_str e))
       end).

Definition all_to_500 {A} (m : M A) : M A :=
  try_except m (fun e => raise (HTTPException 500 (exn_str e))).

(** ** [serialize_doc] (lines 29-35) *)

(** The argument is [None] or a dictionary. *)
Definition serialize_doc (doc : option dict) : option dict :=
  match doc with
  | None => None
  | Some d =>
      if negb (Dict.truthy d) then Some d
      else
        if Dict.contains "_id" d then
          match Dict.pop "_id" d with
          | Some (v, d1) => Some (Dict.set "id" (VStr (py_str v)) d1)
          | None => Some d
          end
        else Some d
  end.

(** A serialized document as a response value. *)
Definition doc_value (doc : option dict) : value :=
  match doc with
  | None => VNone
  | Some d => VDict d
  end.

(** Truthiness of [None] or a dictionary. *)
Definition truthy_doc (doc : option dict) : bool :=
  match doc with
  | None => false
  | Some d => Dict.truthy d
  end.

(** ** Products (lines 49-119) *)

(** [{"category": category} if category else {}] *)
Definition category_filter (category : option string) : dict :=
  match category with
  | Some c => if (String.length c =? 0)%nat then [] else [("category", VStr c)]
  | None => []
  end.

Definition list_products (category : option string) (limit : Z) : M value :=
  all_to_500
    (let filter_dict := category_filter category in
     let! docs := get_documents "product" filter_dict limit in
     ret (VList (map (fun d => doc_value (serialize_doc (Some d))) docs))).

Definition get_product (product_id : string) : M value :=
  reraise_http
    (let! none := db_is_None in
     (if none then raise db_unavailable else ret tt) >>
     let! c := db_getitem "product" in
     let! oid := lift (ObjectId_of_str product_id) in
     let! doc := find_one c [("_id", VObjectId oid)] in
     if negb (truthy_doc doc)
     then raise (HTTPException 404 "Product not found")
     else ret (doc_value (serialize_doc doc))).

Definition product (title description price category image : string)
  : dict :=
  [("title", VStr title); ("description", VStr description);
   ("price", VFloat price); ("category", VStr category);
   ("image", VStr image); ("in_stock", VBool true)].

(** The fixed dataset of [seed_products]. *)
Definition products : list dict :=
  [product "Classic White T-Shirt"
     "100% cotton, breathable, and perfect for everyday wear."
     "699.0" "Apparel"
     "https://images.unsplash.com/photo-1520975916090-3105956dac38?w=800";
   product "Wireless Headphones"
     "Noise-cancelling over-ear headphones with 30h battery life."
     "4999.0" "Electronics"
     "https://images.unsplash.com/photo-1518449037270-557fef82de76?w=800";
   product "Ceramic Coffee Mug"
     "Handmade mug with matte finish and 350ml capacity."
     "349.0" "Home"
     "https://images.unsplash.com/photo-1523942839745-7848d4a7aa89?w=800";
   product "Running Shoes"
     "Lightweight shoes designed for comfort and performance."
     "2999.0" "Footwear"
     "https://images.unsplash.com/photo-1542291026-7eec264c27ff?w=800"].

Definition seed_products : M value :=
  all_to_500
    (let! none := db_is_None in
     (if none then raise db_unavailable else ret tt) >>
     let! c := db_getitem "product" in
     let! n := count_documents c [] in
     if (n =? 0)%nat then
       let! c1 := db_getitem "product" in
       insert_many c1 products >>
       ret (VDict [("inserted", VInt (Z.of_nat (length products)));
                   ("status", VStr "seeded")])
     else ret (VDict [("inserted", VInt 0); ("status", VStr "already-seeded")])).

(** ** Orders (lines 124-146) *)

(** Modelled from the spec: the [Order] schema of [schemas.py], which is
    not part of the source tree.  Section 3: an order is a list of line
    items, each with a textual [product_id] and an integer [quantity]. *)
Record OrderItem := mkOrderItem { product_id : string; quantity : Z }.

Record Order := mkOrder { items : list OrderItem }.

Definition item_value (i : OrderItem) : value :=
  VDict [("product_id", VStr (product_id i)); ("quantity", VInt (quantity i))].

Definition order_doc (o : Order) : dict :=
  [("items", VList (map item_value (items o)))].

(** The loop of lines 128-131. *)
Fixpoint check_items (its : list OrderItem) : M unit :=
  match its with
  | [] => ret tt
  | item :: rest =>
      let! c := db_getitem "product" in
      let! oid := lift (ObjectId_of_str (product_id item)) in
      let! prod := find_one c [("_id", VObjectId oid)] in
      if negb (truthy_doc prod)
      then raise (HTTPException 400
                    ("Invalid product ID: " +:+ product_id item))
      else check_items rest
  end.

Definition create_order (order : Order) : M value :=
  reraise_http
    (check_items (items order) >>
     let! inserted_id := create_document "order" (order_doc order) in
     ret (VDict [("id", VObjectId inserted_id)])).

Definition list_orders (limit : Z) : M value :=
  all_to_500
    (let! docs := get_documents "order" [] limit in
     ret (VList (map (fun d => doc_value (serialize_doc (Some d))) docs))).

(** ** The diagnostic endpoint (lines 149-184) *)

Module Health.

(** What the endpoint sees of the handle [db]: the attribute [name]
    ([None] when the object has none) and the outcome of
    [list_collection_names()]. *)
Record handle := mkHandle {
  name : option string;
  list_collection_names : exn + list string
}.

(** The process environment. *)
Definition environ := gmap string string.

(** [os.getenv(k)] *)
Definition getenv (env : environ) (k : string) : option string := env !! k.

(** Truthiness of [None] or a string. *)
Definition truthy_str (v : option string) : bool :=
  match v with
  | None => false
  | Some s => negb (String.length s =? 0)%nat
  end.

(** [s[:n]] on a string of single-byte characters. *)
Definition prefix (n : nat) (s : string) : string := substring 0 n s.

Definition initial_response : dict :=
  [("backend", VStr "✅ Running");
   ("database", VStr "❌ Not Available");
   ("database_url", VNone);
   ("database_name", VNone);
   ("connection_status", VStr "Not Connected");
   ("collections", VList [])].

(** The [try] block of lines 161-178; no statement in it escapes to the
    outer handler, whose clause is kept for the exceptions of the inner
    computation. *)
Definition probe (db : option handle) (response : dict) : dict :=
  match db with
  | Some h =>
      let response := Dict.set "database" (VStr "✅ Available") response in
      let response :=
        Dict.set "database_url" (VStr "✅ Configured") response in
      let response :=
        Dict.set "database_name"
          (VStr (match name h with
                 | Some n => n
                 | None => "✅ Connected"
                 end)) response in
      let response :=
        Dict.set "connection_status" (VStr "Connected") response in
      match list_collection_names h with
      | inr collections =>
          let response :=
            Dict.set "collections" (VList (map VStr (take 10 collections)))
              response in
          Dict.set "database" (VStr "✅ Connected & Working") response
      | inl e =>
          Dict.set "database"
            (VStr ("⚠️  Connected but Error: " +:+ prefix 50 (exn_str e)))
            response
      end
  | None =>
      Dict.set "database" (VStr "⚠️  Available but not initialized")
        response
  end.

Definition test_database (db : option handle) (env : environ) : dict :=
  let response := probe db initial_response in
  let response :=
    Dict.set "database_url"
      (VStr (if truthy_str (getenv env "DATABASE_URL")
             then "✅ Set" else "❌ Not Set")) response in
  let response :=
    Dict.set "database_name"
      (VStr (if truthy_str (getenv env "DATABASE_NAME")
             then "✅ Set" else "❌ Not Set")) response in
  response.

(** A configuration value is set when the variable exists and is not
    empty. *)
Definition is_set (env : environ) (k : string) : bool :=
  truthy_str (getenv env k).

End Health.

(** ** [serialize_doc] on the heap

    Dictionaries are objects: a variable holds a reference, [dict(doc)]
    allocates a new object, and [pop] and item assignment update an object
    in place.  A computation on the heap has no result when it follows a
    reference to no object. *)

Module Ref.

Abbreviation loc := positive.

Abbreviation heap := (gmap positive dict).

Definition H (A : Type) : Type := heap -> option (A * heap).

Definition hret {A} (a : A) : H A := fun h => Some (a, h).

Definition hbind {A B} (m : H A) (k : A -> H B) : H B :=
  fun h =>
    match m h with
    | Some (a, h1) => k a h1
    | None => None
    end.

Definition hfail {A} : H A := fun _ => None.

Notation "'let*' x ':=' m 'in' k" := (hbind m (fun x => k))
  (at level 10, x name, m at level 100, k at level 200).

(** The dictionary a reference points to. *)
Definition load (l : loc) : H dict :=
  fun h =>
    match h !! l with
    | Some d => Some (d, h)
    | None => None
    end.

(** In-place update of the object at [l]. *)
Definition store (l : loc) (d : dict) : H unit :=
  fun h =>
    match h !! l with
    | Some _ => Some (tt, <[l := d]> h)
    | None => None
    end.

(** [dict(doc)]: a new object with the same items. *)
Definition dict_copy (l : loc) : H loc :=
  let* d := load l in
  fun h => let l1 := fresh (dom h) in Some (l1, <[l1 := d]> h).

(** [k in doc] *)
Definition contains (k : string) (l : loc) : H bool :=
  let* d := load l in hret (Dict.contains k d).

(** [doc.pop(k)] *)
Definition pop (k : string) (l : loc) : H value :=
  let* d := load l in
  match Dict.pop k d with
  | Some (v, d1) => let* _ := store l d1 in hret v
  | None => hfail
  end.

(** [doc[k] = v] *)
Definition setitem (k : string) (v : value) (l : loc) : H unit :=
  let* d := load l in store l (Dict.set k v d).

(** [not doc] for a reference or [None]. *)
Definition falsy (doc : option loc) : H bool :=
  match doc with
  | None => hret true
  | Some l => let* d := load l in hret (negb (Dict.truthy d))
  end.

Definition serialize_doc (doc : option loc) : H (option loc) :=
  let* stop := falsy doc in
  if stop then hret doc
  else
    match doc with
    | None => hret doc
    | Some l =>
        let* doc := dict_copy l in
        let* has_id := contains "_id" doc in
        if has_id then
          let* v := pop "_id" doc in
          let* _ := setitem "id" (VStr (py_str v)) doc in
          hret (Some doc)
        else hret (Some doc)
    end.

(** The dictionary behind a reference, [None] for Python's [None]. *)
Definition deref (h : heap) (doc : option loc) : option dict :=
  match doc with
  | None => None
  | Some l => h !! l
  end.

(** A reference is valid when it is [None] or points to an object. *)
Definition valid (h : heap) (doc : option loc) : Prop :=
  match doc with
  | None => True
  | Some l => is_Some (h !! l)
  end.

End Ref.

(** ** Vocabulary of the specification *)

(** [find_one({"_id": oid})] on the product collection. *)
Definition lookup_product (d : database) (oid : ObjectId) : option dict :=
  head (List.filter (matches [("_id", VObjectId oid)]) (collection d "product")).

(** A textual [product_id] resolves when it decodes and a product document
    has the decoded identifier. *)
Definition resolves (d : database) (pid : string) : bool :=
  match ObjectId_of_str pid with
  | inr oid => truthy_doc (lookup_product d oid)
  | inl _ => false
  end.

Definition all_resolve (d : database) (its : list OrderItem) : bool :=
  forallb (fun i => resolves d (product_id i)) its.

(** The failures of section 7 as the responses of the boundary. *)
Definition NotFound : exn := HTTPException 404 "Product not found".

Definition InvalidReference (pid : string) : exn :=
  HTTPException 400 ("Invalid product ID: " +:+ pid).

(** A malformed identifier reaches the boundary as an internal error that
    carries the decoder's message. *)
Definition MalformedIdentifier (pid : string) : exn :=
  HTTPException 500 (invalid_id_msg pid).

Definition StoreUnavailable : exn :=
  HTTPException 500 "Database not available".

(** The lookups that validation sends to the store for one [product_id]:
    none when the identifier does not decode. *)
Definition lookup_events (pid : string) : list event :=
  match ObjectId_of_str pid with
  | inr oid => [EFindOne "product" [("_id", VObjectId oid)]]
  | inl _ => []
  end.

Definition lookups (its : list OrderItem) : list event :=
  flat_map (fun i => lookup_events (product_id i)) its.

(** The failure of validation at a line item that does not resolve. *)
Definition validation_failure (pid : string) : exn :=
  match ObjectId_of_str pid with
  | inr _ => InvalidReference pid
  | inl e => e
  end.

(** The store after the insertion of an order. *)
Definition with_order (d : database) (o : Order) : database :=
  {| collections :=
       <["order" :=
           (collection d "order" ++
            [("_id", VObjectId (ObjectId_new (oid_counter d))) :: order_doc o])%list]>
         (collections d);
     oid_counter := (oid_counter d + 1)%N |}.

(** A document without its identifier field. *)
Definition without_id (doc : dict) : dict := Dict.remove "_id" doc.

(** The response of the boundary to an exception of the handler body when
    [HTTPException] is raised again and the rest becomes a 500. *)
Definition boundary (e : exn) : exn :=
  match e with
  | HTTPException _ _ => e
  | _ => HTTPException 500 (exn_str e)
  end.

(** The fixed dataset as the store holds it after seeding from counter
    [n]: each product with its assigned identifier. *)
Definition seeded (n : N) : list dict := fst (assign_ids products n).

(** The log of a seeding request that found the collection empty, and of
    one that did not. *)
Definition seed_events : list event :=
  [ECountDocuments "product" []; EInsertMany "product" products].

Definition skip_events : list event := [ECountDocuments "product" []].

(** The HTTP status of a response: the code of the exception, 200 for a
    value. *)
Definition status_of (r : exn + value) : Z :=
  match r with
  | inl (HTTPException c _) => c
  | inl _ => 500
  | inr _ => 200
  end.

(** ** Sample data *)

Definition mug : dict :=
  [("_id", VObjectId (ObjectId_new 0)); ("title", VStr "Mug");
   ("price", VFloat "349.0"); ("category", VStr "Home");
   ("in_stock", VBool true)].

Definition db_empty : database :=
  {| collections := ∅; oid_counter := 0 |}.

Definition db_mug : database :=
  {| collections := {["product" := [mug]]}; oid_counter := 1 |}.

Definition world_empty : world := {| db := Some db_empty; log := [] |}.

Definition world_mug : world := {| db := Some db_mug; log := [] |}.

Definition world_down : world := {| db := None; log := [] |}.

Definition id_mug : string := "000000000000000000000000".

Definition id_absent : string := "0000000000000000000000ff".

Definition order_stale : Order :=
  mkOrder [mkOrderItem id_mug 2; mkOrderItem id_absent 1; mkOrderItem "zz" 1].

Definition order_malformed : Order :=
  mkOrder [mkOrderItem "abc" 1; mkOrderItem id_mug 2].

Definition order_mug : Order := mkOrder [mkOrderItem id_mug 2].

Definition order_none : Order := mkOrder [].

Definition env_alpha : Health.environ :=
  {["DATABASE_URL" := "mongodb://alpha:27017"]}.

Definition env_beta : Health.environ :=
  {["DATABASE_URL" := "mongodb+srv://beta.example.net"]}.

Definition handle_shop : Health.handle :=
  Health.mkHandle (Some "shop") (inr ["product"; "order"]).

Definition handle_lost : Health.handle :=
  Health.mkHandle (Some "shop") (inl (Exception "connection refused")).

(** ** Creation of a product (lines 40-46) *)

(** Modelled from the spec: the [Product] schema of [schemas.py], which is
    not part of the source tree.  Section 3: title, description, category
    and image are texts, price is a number and [in_stock] a boolean. *)
Record Product := mkProduct {
  title : string;
  description : string;
  price : string;
  category : string;
  image : string;
  in_stock : bool
}.

Definition product_doc (p : Product) : dict :=
  [("title", VStr (title p)); ("description", VStr (description p));
   ("price", VFloat (price p)); ("category", VStr (category p));
   ("image", VStr (image p)); ("in_stock", VBool (in_stock p))].

Definition create_product (product : Product) : M value :=
  all_to_500
    (let! inserted_id := create_document "product" (product_doc product) in
     ret (VDict [("id", VObjectId inserted_id)])).

(** ** Further vocabulary *)

(** A document of category [c]. *)
Definition has_category (c : string) (doc : dict) : bool :=
  match Dict.get "category" doc with
  | Some (VStr s) => String.eqb c s
  | _ => false
  end.

(** A run from [w] to [w1] that left the store as it was and sent it at
    most one operation, a read. *)
Definition read_only (w w1 : world) : Prop :=
  db w1 = db w /\
  exists evs,
    log w1 = (log w ++ evs)%list /\
    existsb is_write evs = false /\
    length evs <= 1.

(** The store after the insertion of a product. *)
Definition with_product (d : database) (p : Product) : database :=
  {| collections :=
       <["product" :=
           (collection d "product" ++
            [("_id", VObjectId (ObjectId_new (oid_counter d)))
               :: product_doc p])%list]>
         (collections d);
     oid_counter := (oid_counter d + 1)%N |}.

(** The fields of the diagnostic response, in order. *)
Definition health_keys : list string :=
  ["backend"; "database"; "database_url"; "database_name";
   "connection_status"; "collections"].

(** A dataset product as the listing shows it after seeding: its fields
    followed by the public identifier. *)
Definition listed (p : dict) (n : N) : value :=
  VDict (p ++ [("id", VStr (ObjectId_str (ObjectId_new n)))])%list.

Definition lamp : Product :=
  mkProduct "Lamp" "Desk lamp" "1299.0" "Home" "https://example.org/lamp.png"
    true.

Definition handle_many : Health.handle :=
  Health.mkHandle None
    (inr ["a"; "b"; "c"; "d"; "e"; "f"; "g"; "h"; "i"; "j"; "k"; "l"]).

(** A response value that is a document without the internal identifier
    field. *)
Definition public_doc (v : value) : Prop :=
  exists out, v = VDict out /\ Dict.get "_id" out = None.

(** * Properties *)

(** ** Text of values *)

Example py_str_list :
  py_str (VList [VInt 3; VStr "mug"; VDict [("a", VBool true); ("b", VNone)]])
  = "[3, 'mug', {'a': True, 'b': None}]".
Proof. reflexivity. Qed.

Example py_str_ObjectId :
  py_str (VObjectId (ObjectId_new 255)) = "0000000000000000000000ff" /\
  repr_str "abc" = "'abc'".
Proof. split; reflexivity. Qed.

(** ** The identifier codec *)

Section Codec.

Lemma string_pair_ind (P : string -> Prop) :
  P "" ->
  (forall c, P (String c "")) ->
  (forall c1 c2 s, P s -> P (String c1 (String c2 s))) ->
  forall s, P s.
Proof.
  intros Hnil Hone Hpair s.
  enough (P s /\ forall c, P (String c s)) by tauto.
  induction s as [|c s [IH1 IH2]]; split; auto.
Qed.

Lemma hex_value_lt c n : hex_value c = Some n -> (n < 16)%N.
Proof.
  unfold hex_value.
  repeat match goal with
         | |- context [if ?b then _ else _] => destruct b eqn:?
         end; intros [= <-];
    repeat match goal with
           | H : (_ && _) = true |- _ => apply andb_prop in H as [? ?]
           | H : (_ <=? _)%N = true |- _ => apply N.leb_le in H
           end; lia.
Qed.

Lemma hex_value_digit n : (n < 16)%N -> hex_value (hex_digit n) = Some n.
Proof.
  intros Hn.
  assert (Hcases : In n (map N.of_nat (seq 0 16))).
  { replace n with (N.of_nat (N.to_nat n)) by lia.
    apply in_map, in_seq. lia. }
  simpl in Hcases.
  repeat (destruct Hcases as [<- | Hcases]; [reflexivity|]).
  destruct Hcases.
Qed.

Lemma bytes_fromhex_byte_hex b s :
  bytes_fromhex (byte_hex b +:+ s) =
  match bytes_fromhex s with
  | Some bs => Some (b :: bs)
  | None => None
  end.
Proof.
  unfold byte_hex.
  change (String ?a (String ?b "") +:+ s) with (String a (String b s)).
  cbn [bytes_fromhex].
  pose proof (Byte.to_N_bounded b) as Hb.
  rewrite !hex_value_digit.
  - destruct (bytes_fromhex s); [|reflexivity].
    replace (16 * (Byte.to_N b / 16) + Byte.to_N b mod 16)%N
      with (Byte.to_N b) by (rewrite (N.div_mod' (Byte.to_N b) 16) at 1; lia).
    now rewrite Byte.of_to_N.
  - apply N.mod_lt. lia.
  - apply N.Div0.div_lt_upper_bound. lia.
Qed.

Lemma bytes_fromhex_hex bs : bytes_fromhex (bytes_hex bs) = Some bs.
Proof.
  induction bs as [|b bs IH]; [reflexivity|].
  cbn [bytes_hex]. now rewrite bytes_fromhex_byte_hex, IH.
Qed.

Lemma length_bytes_hex bs : String.length (bytes_hex bs) = 2 * length bs.
Proof.
  induction bs as [|b bs IH]; [reflexivity|].
  cbn [bytes_hex]. unfold byte_hex.
  change (String ?a (String ?b "") +:+ ?s) with (String a (String b s)).
  cbn [String.length length]. lia.
Qed.

(** What [bytes_fromhex] accepts: an even number of hexadecimal
    characters, two for each byte. *)
Lemma bytes_fromhex_spec s :
  match bytes_fromhex s with
  | Some bs =>
      forallb is_hex (list_ascii_of_string s) = true /\
      String.length s = 2 * length bs
  | None =>
      forallb is_hex (list_ascii_of_string s) = false \/
      Nat.odd (String.length s) = true
  end.
Proof.
  induction s as [|c|c1 c2 s IH] using string_pair_ind.
  - now split.
  - now right.
  - cbn [bytes_fromhex list_ascii_of_string forallb String.length].
    assert (Hhex : forall c, is_hex c =
                     match hex_value c with Some _ => true | None => false end)
      by reflexivity.
    rewrite !Hhex.
    destruct (hex_value c1) as [hi|] eqn:H1; [|left; reflexivity].
    destruct (hex_value c2) as [lo|] eqn:H2; [|left; reflexivity].
    destruct (bytes_fromhex s) as [bs|].
    + apply hex_value_lt in H1, H2.
      destruct (Byte.of_N (16 * hi + lo)) as [b|] eqn:Hb.
      * destruct IH as [-> ->]. split; [reflexivity|]. cbn [length]. lia.
      * apply Byte.of_N_None_iff in Hb. lia.
    + destruct IH as [-> | IH]; [left; reflexivity | right; exact IH].
Qed.

Lemma ObjectId_roundtrip o :
  native o -> ObjectId_of_str (ObjectId_str o) = inr o.
Proof.
  unfold native, ObjectId_of_str, ObjectId_str. intros Hlen.
  rewrite length_bytes_hex, Hlen, bytes_fromhex_hex.
  now destruct o.
Qed.

Lemma ObjectId_malformed s :
  id_shaped s = false ->
  ObjectId_of_str s = inl (InvalidId (invalid_id_msg s)).
Proof.
  unfold id_shaped, ObjectId_of_str. intros Hs.
  destruct (String.length s =? 24)%nat eqn:Hlen; [|reflexivity].
  cbn in Hs. pose proof (bytes_fromhex_spec s) as Hspec.
  destruct (bytes_fromhex s); [|reflexivity].
  destruct Hspec as [Hhex _]. congruence.
Qed.

Lemma ObjectId_wellformed s :
  id_shaped s = true ->
  exists o, ObjectId_of_str s = inr o /\ native o /\ 
            String.length s = 24%nat.
Proof.
  unfold id_shaped, ObjectId_of_str, native. intros Hs.
  apply andb_prop in Hs as [Hlen Hhex]. rewrite Hlen.
  apply Nat.eqb_eq in Hlen. pose proof (bytes_fromhex_spec s) as Hspec.
  destruct (bytes_fromhex s) as [bs|].
  - exists (mkObjectId bs). cbn. intuition lia.
  - destruct Hspec as [Hspec | Hspec]; [congruence|].
    rewrite Hlen in Hspec. discriminate.
Qed.

End Codec.

(** ** Computations *)

Lemma world_eta (w : world) : {| db := db w; log := log w |} = w.
Proof. now destruct w. Qed.

Lemma emit_db e w : db (emit e w) = db w.
Proof. reflexivity. Qed.

Lemma emit_log e w : log (emit e w) = (log w ++ [e])%list.
Proof. reflexivity. Qed.

(** A document found by its identifier is not empty. *)
Lemma matches_id_truthy v doc :
  matches [("_id", v)] doc = true -> Dict.truthy doc = true.
Proof. now destruct doc. Qed.

Lemma lookup_product_truthy d oid doc :
  lookup_product d oid = Some doc -> Dict.truthy doc = true.
Proof.
  unfold lookup_product. intros Hhead.
  apply head_Some_elem_of, list_elem_of_In, filter_In in Hhead as [_ Hm].
  eauto using matches_id_truthy.
Qed.

Lemma resolves_decodes d pid :
  resolves d pid = true ->
  exists oid doc, ObjectId_of_str pid = inr oid /\
                  lookup_product d oid = Some doc /\
                  Dict.truthy doc = true.
Proof.
  unfold resolves. destruct (ObjectId_of_str pid) as [e|oid]; [discriminate|].
  destruct (lookup_product d oid) as [doc|] eqn:Hdoc; [|discriminate].
  eauto 6 using lookup_product_truthy.
Qed.

(** ** Validation of orders *)

(** One turn of the validation loop on an available store. *)
Lemma check_items_cons item rest w d :
  db w = Some d ->
  check_items (item :: rest) w =
  match ObjectId_of_str (product_id item) with
  | inl e => (inl e, w)
  | inr oid =>
      let w1 := emit (EFindOne "product" [("_id", VObjectId oid)]) w in
      if truthy_doc (lookup_product d oid) then check_items rest w1
      else (inl (InvalidReference (product_id item)), w1)
  end.
Proof.
  intros Hdb. cbn [check_items]. unfold bind at 1, db_getitem. rewrite Hdb.
  unfold bind at 1. destruct (ObjectId_of_str (product_id item)) as [e|oid];
    [reflexivity|].
  cbn [lift ret]. unfold bind, find_one. rewrite Hdb.
  fold (lookup_product d oid).
  now destruct (truthy_doc (lookup_product d oid)).
Qed.

Lemma check_items_down its w :
  db w = None ->
  check_items its w =
  match its with
  | [] => (inr tt, w)
  | _ :: _ => (inl none_subscript, w)
  end.
Proof.
  intros Hdb. destruct its as [|item rest]; [reflexivity|].
  cbn [check_items]. unfold bind, db_getitem. now rewrite Hdb.
Qed.

Lemma lookups_app pre post :
  lookups (pre ++ post) = (lookups pre ++ lookups post)%list.
Proof. unfold lookups. now rewrite flat_map_app. Qed.

(** When every line item resolves the loop runs to its end, having sent
    one lookup for each item and nothing else. *)
Lemma check_items_pass d its : forall w,
  db w = Some d ->
  all_resolve d its = true ->
  check_items its w =
  (inr tt, {| db := db w; log := (log w ++ lookups its)%list |}).
Proof.
  induction its as [|item rest IH]; intros w Hdb Hall.
  - cbn. now rewrite app_nil_r, world_eta.
  - cbn [all_resolve forallb] in Hall. apply andb_prop in Hall as [Hitem Hrest].
    rewrite (check_items_cons _ _ _ d Hdb).
    unfold lookups. cbn [flat_map]. unfold lookup_events at 1.
    unfold resolves in Hitem.
    destruct (ObjectId_of_str (product_id item)) as [e|oid]; [discriminate|].
    cbn zeta. rewrite Hitem, IH by assumption.
    cbn [emit db log]. now rewrite <- app_assoc.
Qed.

(** The loop stops at the first line item that does not resolve: the
    outcome and the lookups sent do not depend on the items after it. *)
Lemma check_items_stop d pre bad post : forall w,
  db w = Some d ->
  all_resolve d pre = true ->
  resolves d (product_id bad) = false ->
  check_items (pre ++ bad :: post) w =
  (inl (validation_failure (product_id bad)),
   {| db := db w;
      log := (log w ++ lookups pre ++ lookup_events (product_id bad))%list |}).
Proof.
  induction pre as [|item rest IH]; intros w Hdb Hall Hbad.
  - cbn [app lookups flat_map]. rewrite (check_items_cons _ _ _ d Hdb).
    unfold validation_failure, lookup_events. unfold resolves in Hbad.
    destruct (ObjectId_of_str (product_id bad)) as [e|oid].
    + now rewrite app_nil_r, world_eta.
    + cbn zeta. now rewrite Hbad.
  - cbn [all_resolve forallb] in Hall. apply andb_prop in Hall as [Hitem Hrest].
    rewrite <- app_comm_cons, (check_items_cons _ _ _ d Hdb).
    unfold lookups. cbn [flat_map]. unfold lookup_events at 1.
    unfold resolves in Hitem.
    destruct (ObjectId_of_str (product_id item)) as [e|oid]; [discriminate|].
    cbn zeta. rewrite Hitem, IH by assumption.
    cbn [emit db log]. now rewrite <- !app_assoc.
Qed.

(** Either every line item resolves or there is a first one that does
    not. *)
Lemma first_unresolved d its :
  all_resolve d its = true \/
  exists pre bad post,
    its = (pre ++ bad :: post)%list /\
    all_resolve d pre = true /\
    resolves d (product_id bad) = false.
Proof.
  induction its as [|item rest IH]; [now left|].
  destruct (resolves d (product_id item)) eqn:Hitem.
  - destruct IH as [IH | (pre & bad & post & -> & Hpre & Hbad)].
    + left. cbn. now rewrite Hitem.
    + right. exists (item :: pre), bad, post. cbn. now rewrite Hitem.
  - right. now exists [], item, rest.
Qed.

Lemma lookup_events_read pid : existsb is_write (lookup_events pid) = false.
Proof. unfold lookup_events. now destruct (ObjectId_of_str pid). Qed.

Lemma lookups_read its : existsb is_write (lookups its) = false.
Proof.
  induction its as [|i its IH]; [reflexivity|].
  unfold lookups in *. cbn [flat_map].
  now rewrite existsb_app, lookup_events_read, IH.
Qed.

Lemma reraise_http_run {A} (m : M A) w :
  reraise_http m w =
  match m w with
  | (inr a, w1) => (inr a, w1)
  | (inl e, w1) => (inl (boundary e), w1)
  end.
Proof.
  unfold reraise_http, try_except.
  destruct (m w) as [[e|a] w1]; [|reflexivity]. now destruct e.
Qed.

Lemma validation_failure_boundary pid :
  boundary (validation_failure pid) =
  if id_shaped pid then InvalidReference pid else MalformedIdentifier pid.
Proof.
  unfold validation_failure. destruct (id_shaped pid) eqn:Hs.
  - apply ObjectId_wellformed in Hs as (o & -> & _). reflexivity.
  - now rewrite (ObjectId_malformed _ Hs).
Qed.

Lemma create_order_pass d o w :
  db w = Some d ->
  all_resolve d (items o) = true ->
  create_order o w =
  (inr (VDict [("id", VObjectId (ObjectId_new (oid_counter d)))]),
   {| db := Some (with_order d o);
      log := (log w ++ lookups (items o) ++
              [EInsertOne "order" (order_doc o)])%list |}).
Proof.
  intros Hdb Hall. unfold create_order. rewrite reraise_http_run.
  unfold bind at 1. rewrite (check_items_pass d) by assumption.
  unfold bind, create_document. cbn [db log]. rewrite Hdb.
  cbn [ret]. now rewrite <- app_assoc.
Qed.

Lemma create_order_stop d o w pre bad post :
  db w = Some d ->
  items o = (pre ++ bad :: post)%list ->
  all_resolve d pre = true ->
  resolves d (product_id bad) = false ->
  create_order o w =
  (inl (if id_shaped (product_id bad)
        then InvalidReference (product_id bad)
        else MalformedIdentifier (product_id bad)),
   {| db := db w;
      log := (log w ++ lookups pre ++ lookup_events (product_id bad))%list |}).
Proof.
  intros Hdb Hits Hpre Hbad. unfold create_order. rewrite reraise_http_run.
  unfold bind at 1. rewrite Hits, (check_items_stop d) by assumption.
  now rewrite validation_failure_boundary.
Qed.

Lemma create_order_down o w :
  db w = None ->
  create_order o w =
  (inl (HTTPException 500
          (match items o with
           | [] => exn_str db_unavailable
           | _ :: _ => exn_str none_subscript
           end)), w).
Proof.
  intros Hdb. unfold create_order. rewrite reraise_http_run.
  unfold bind at 1. rewrite check_items_down by assumption.
  destruct (items o); [|reflexivity].
  unfold bind, create_document. now rewrite Hdb.
Qed.

Lemma collection_with_order d o :
  collection (with_order d o) "order" =
  (collection d "order" ++
   [("_id", VObjectId (ObjectId_new (oid_counter d))) :: order_doc o])%list.
Proof. unfold collection at 1, with_order. cbn. now rewrite lookup_insert_eq. Qed.

Lemma collection_with_order_other d o name :
  name <> "order" ->
  collection (with_order d o) name = collection d name.
Proof.
  intros Hne. unfold collection, with_order. cbn.
  now rewrite lookup_insert_ne.
Qed.

(** C2 (as amended).  Validation is fail-fast.  On an available store, the
    first line item whose [product_id] does not resolve ends the request:
    with InvalidReference (HTTP 400) naming that identifier when it is
    well-formed and matches no product, with the internal error (HTTP 500)
    of a malformed identifier when it does not decode.  The store is left
    as it was and the only operations sent to it are the lookups of the
    items up to the failing one, so no later item is checked.  When every
    [product_id] resolves, validation succeeds and the order is created. *)
Theorem create_order_fail_fast d w o :
  db w = Some d ->
  (forall pre bad post,
     items o = (pre ++ bad :: post)%list ->
     all_resolve d pre = true ->
     resolves d (product_id bad) = false ->
     create_order o w =
     (inl (if id_shaped (product_id bad)
           then InvalidReference (product_id bad)
           else MalformedIdentifier (product_id bad)),
      {| db := db w;
         log := (log w ++ lookups pre ++
                 lookup_events (product_id bad))%list |})) /\
  (all_resolve d (items o) = true ->
   check_items (items o) w =
   (inr tt, {| db := db w; log := (log w ++ lookups (items o))%list |}) /\
   fst (create_order o w) =
   inr (VDict [("id", VObjectId (ObjectId_new (oid_counter d)))])).
Proof.
  intros Hdb. split.
  - intros pre bad post Hits Hpre Hbad.
    now apply (create_order_stop d o w pre bad post).
  - intros Hall. split.
    + now apply (check_items_pass d).
    + now rewrite (create_order_pass d).
Qed.

Lemma create_order_fail_fast_witness :
  create_order order_stale world_mug =
  (inl (InvalidReference id_absent),
   {| db := Some db_mug;
      log := (lookups [mkOrderItem id_mug 2] ++ lookup_events id_absent)%list |})
  /\ create_order order_malformed world_mug =
     (inl (MalformedIdentifier "abc"), world_mug)
  /\ fst (create_order order_mug world_mug) =
     inr (VDict [("id", VObjectId (ObjectId_new 1))]).
Proof.
  split; [|split].
  - apply (proj1 (create_order_fail_fast db_mug world_mug order_stale eq_refl)
             [mkOrderItem id_mug 2] (mkOrderItem id_absent 1)
             [mkOrderItem "zz" 1]); reflexivity.
  - apply (proj1 (create_order_fail_fast db_mug world_mug order_malformed
                    eq_refl)
             [] (mkOrderItem "abc" 1) [mkOrderItem id_mug 2]); reflexivity.
  - apply (proj2 (create_order_fail_fast db_mug world_mug order_mug eq_refl)).
    reflexivity.
Defined.

(** C2 (as stated) fails on a malformed identifier: the line item ["abc"]
    does not resolve, yet the request ends with HTTP 500 and the decoder's
    message, not with InvalidReference. *)
Lemma create_order_malformed_is_500 :
  resolves db_mug "abc" = false /\
  fst (create_order order_malformed world_mug) =
  inl (HTTPException 500
         "'abc' is not a valid ObjectId, it must be a 12-byte input or a 24-character hex string") /\
  fst (create_order order_malformed world_mug) <> inl (InvalidReference "abc").
Proof.
  split; [reflexivity|]. split; [reflexivity|].
  intros H. vm_compute in H. discriminate H.
Qed.

(** C6.  Order creation is atomic with respect to validation failure.
    Validation sends only reads and leaves the store as it was; a request
    that ends with an exception (InvalidReference among them) leaves the
    store as it was and sent no write; a request that succeeds found every
    line item resolving on the store it started from and added exactly the
    order document. *)
Theorem create_order_atomic o w :
  (exists evs,
     snd (check_items (items o) w) =
     {| db := db w; log := (log w ++ evs)%list |} /\
     existsb is_write evs = false) /\
  match create_order o w with
  | (inl e, w1) =>
      exists evs,
        w1 = {| db := db w; log := (log w ++ evs)%list |} /\
        existsb is_write evs = false
  | (inr _, w1) =>
      exists d,
        db w = Some d /\
        all_resolve d (items o) = true /\
        db w1 = Some (with_order d o) /\
        collection (with_order d o) "order" =
        (collection d "order" ++
         [("_id", VObjectId (ObjectId_new (oid_counter d))) :: order_doc o])%list
  end.
Proof.
  destruct (db w) as [d|] eqn:Hdb.
  - destruct (first_unresolved d (items o))
      as [Hall | (pre & bad & post & Hits & Hpre & Hbad)].
    + split.
      * exists (lookups (items o)).
        rewrite (check_items_pass d), Hdb by assumption.
        split; [reflexivity | apply lookups_read].
      * rewrite (create_order_pass d) by assumption.
        exists d. repeat split; auto using collection_with_order.
    + split.
      * exists (lookups pre ++ lookup_events (product_id bad))%list.
        rewrite Hits, (check_items_stop d), Hdb by assumption.
        split; [reflexivity|].
        now rewrite existsb_app, lookups_read, lookup_events_read.
      * rewrite (create_order_stop d o w pre bad post), Hdb by assumption.
        exists (lookups pre ++ lookup_events (product_id bad))%list.
        split; [reflexivity|].
        now rewrite existsb_app, lookups_read, lookup_events_read.
  - split.
    + exists []. rewrite check_items_down by assumption.
      rewrite app_nil_r, <- Hdb.
      destruct (items o); cbn [snd]; now rewrite world_eta.
    + rewrite create_order_down by assumption.
      exists []. now rewrite app_nil_r, <- Hdb, world_eta.
Qed.

(** C8.  An order with no line items is accepted: validation succeeds
    without a single lookup, and on an available store the order is
    persisted and its identifier returned. *)
Theorem create_order_empty d o w :
  items o = [] ->
  db w = Some d ->
  check_items (items o) w = (inr tt, w) /\
  create_order o w =
  (inr (VDict [("id", VObjectId (ObjectId_new (oid_counter d)))]),
   {| db := Some (with_order d o);
      log := (log w ++ [EInsertOne "order" (order_doc o)])%list |}) /\
  collection (with_order d o) "order" =
  (collection d "order" ++
   [[("_id", VObjectId (ObjectId_new (oid_counter d))); ("items", VList [])]])%list.
Proof.
  intros Hits Hdb. split; [now rewrite Hits|]. split.
  - rewrite (create_order_pass d) by (assumption || now rewrite Hits).
    now rewrite Hits.
  - rewrite collection_with_order. unfold order_doc. now rewrite Hits.
Qed.

Lemma create_order_empty_witness :
  check_items [] world_mug = (inr tt, world_mug) /\
  create_order order_none world_mug =
  (inr (VDict [("id", VObjectId (ObjectId_new 1))]),
   {| db := Some (with_order db_mug order_none);
      log := [EInsertOne "order" [("items", VList [])]] |}) /\
  collection (with_order db_mug order_none) "order" =
  [[("_id", VObjectId (ObjectId_new 1)); ("items", VList [])]].
Proof.
  exact (create_order_empty db_mug order_none world_mug eq_refl eq_refl).
Defined.

(** ** Lookup of a product *)

Lemma get_product_run d w pid :
  db w = Some d ->
  get_product pid w =
  match ObjectId_of_str pid with
  | inl e => (inl (boundary e), w)
  | inr oid =>
      let w1 := emit (EFindOne "product" [("_id", VObjectId oid)]) w in
      if truthy_doc (lookup_product d oid)
      then (inr (doc_value (serialize_doc (lookup_product d oid))), w1)
      else (inl NotFound, w1)
  end.
Proof.
  intros Hdb. unfold get_product. rewrite reraise_http_run.
  unfold bind at 1, db_is_None. rewrite Hdb.
  unfold bind at 1. cbn [ret]. unfold bind at 1, db_getitem. rewrite Hdb.
  unfold bind at 1.
  destruct (ObjectId_of_str pid) as [e|oid]; [reflexivity|].
  cbn [lift ret]. unfold bind, find_one. rewrite Hdb.
  fold (lookup_product d oid).
  now destruct (truthy_doc (lookup_product d oid)).
Qed.

Lemma get_product_down w pid :
  db w = None -> get_product pid w = (inl StoreUnavailable, w).
Proof.
  intros Hdb. unfold get_product. rewrite reraise_http_run.
  unfold bind at 1, db_is_None. now rewrite Hdb.
Qed.

(** A malformed identifier is an internal error on every store, and never
    the lookup miss. *)
Lemma get_product_malformed pid w :
  id_shaped pid = false ->
  status_of (fst (get_product pid w)) = 500%Z /\
  fst (get_product pid w) <> inl NotFound /\
  (db w <> None -> fst (get_product pid w) = inl (MalformedIdentifier pid)).
Proof.
  intros Hs. destruct (db w) as [d|] eqn:Hdb.
  - rewrite (get_product_run d) by assumption.
    rewrite (ObjectId_malformed _ Hs). now cbn.
  - rewrite get_product_down by assumption. now cbn.
Qed.

Lemma ObjectId_str_shaped o : native o -> id_shaped (ObjectId_str o) = true.
Proof.
  unfold native, id_shaped, ObjectId_str. intros Hlen.
  pose proof (bytes_fromhex_spec (bytes_hex (binary o))) as Hspec.
  rewrite bytes_fromhex_hex in Hspec. destruct Hspec as [-> ->].
  now rewrite Hlen.
Qed.

(** C3.  The identifier codec round-trips, and decoding a string that is
    not of the store's identifier shape fails with the decoder's
    [InvalidId] (MalformedIdentifier); at the boundary that failure is an
    internal error and never NotFound. *)
Theorem codec_roundtrip o s :
  native o ->
  id_shaped s = false ->
  ObjectId_of_str (ObjectId_str o) = inr o /\
  ObjectId_of_str s = inl (InvalidId (invalid_id_msg s)) /\
  forall w,
    fst (get_product s w) <> inl NotFound /\
    status_of (fst (get_product s w)) = 500%Z.
Proof.
  intros Ho Hs. split; [now apply ObjectId_roundtrip|].
  split; [now apply ObjectId_malformed|].
  intros w. destruct (get_product_malformed s w Hs) as (H500 & Hnf & _).
  now split.
Qed.

Lemma codec_roundtrip_witness :
  ObjectId_of_str (ObjectId_str (ObjectId_new 255)) = inr (ObjectId_new 255) /\
  ObjectId_of_str "0000000000000000000000zz" =
  inl (InvalidId (invalid_id_msg "0000000000000000000000zz")) /\
  forall w,
    fst (get_product "0000000000000000000000zz" w) <> inl NotFound /\
    status_of (fst (get_product "0000000000000000000000zz" w)) = 500%Z.
Proof.
  apply (codec_roundtrip (ObjectId_new 255) "0000000000000000000000zz");
    reflexivity.
Defined.

(** C7.  Lookup by identifier keeps its failures apart.  On an available
    store a well-formed identifier that matches no product gives NotFound
    (HTTP 404) and a malformed identifier gives an internal error (HTTP
    500) with the decoder's message; the two responses differ. *)
Theorem get_product_failure_modes d w pid :
  db w = Some d ->
  resolves d pid = false ->
  fst (get_product pid w) =
  inl (if id_shaped pid then NotFound else MalformedIdentifier pid) /\
  status_of (fst (get_product pid w)) =
  (if id_shaped pid then 404 else 500)%Z /\
  NotFound <> MalformedIdentifier pid.
Proof.
  intros Hdb Hres.
  assert (Hrun : fst (get_product pid w) =
                 inl (if id_shaped pid then NotFound
                      else MalformedIdentifier pid)).
  { rewrite (get_product_run d) by assumption. unfold resolves in Hres.
    destruct (id_shaped pid) eqn:Hs.
    - apply ObjectId_wellformed in Hs as (o & Ho & _). rewrite Ho in *.
      cbn zeta. now rewrite Hres.
    - now rewrite (ObjectId_malformed _ Hs). }
  rewrite Hrun. split; [reflexivity|]. split; [|discriminate].
  now destruct (id_shaped pid).
Qed.

Lemma get_product_failure_modes_witness :
  (fst (get_product id_absent world_mug) = inl NotFound /\
   status_of (fst (get_product id_absent world_mug)) = 404%Z /\
   NotFound <> MalformedIdentifier id_absent) /\
  (fst (get_product "abc" world_mug) = inl (MalformedIdentifier "abc") /\
   status_of (fst (get_product "abc" world_mug)) = 500%Z /\
   NotFound <> MalformedIdentifier "abc").
Proof.
  split.
  - exact (get_product_failure_modes db_mug world_mug id_absent
             eq_refl eq_refl).
  - exact (get_product_failure_modes db_mug world_mug "abc" eq_refl eq_refl).
Defined.

(** A product that resolves is returned in its serialized form. *)
Lemma get_product_found d w pid :
  db w = Some d ->
  resolves d pid = true ->
  exists oid doc,
    ObjectId_of_str pid = inr oid /\
    lookup_product d oid = Some doc /\
    fst (get_product pid w) = inr (doc_value (serialize_doc (Some doc))).
Proof.
  intros Hdb Hres. rewrite (get_product_run d) by assumption.
  destruct (resolves_decodes _ _ Hres) as (oid & doc & Ho & Hdoc & Ht).
  exists oid, doc. rewrite Ho, Hdoc. cbn. now rewrite Ht.
Qed.

(** ** Seeding *)

Lemma filter_matches_all (docs : list dict) :
  List.filter (matches []) docs = docs.
Proof. induction docs as [|doc docs IH]; cbn; congruence. Qed.

Lemma seed_products_run d w :
  db w = Some d ->
  seed_products w =
  if (length (collection d "product") =? 0)%nat then
    (inr (VDict [("inserted", VInt (Z.of_nat (length products)));
                 ("status", VStr "seeded")]),
     {| db := Some (store_insert d "product" products);
        log := (log w ++ seed_events)%list |})
  else
    (inr (VDict [("inserted", VInt 0); ("status", VStr "already-seeded")]),
     {| db := db w; log := (log w ++ skip_events)%list |}).
Proof.
  intros Hdb. unfold seed_products, all_to_500, try_except.
  unfold bind at 1, db_is_None. rewrite Hdb.
  unfold bind at 1. cbn [ret]. unfold bind at 1, db_getitem. rewrite Hdb.
  unfold bind at 1, count_documents. rewrite Hdb, filter_matches_all.
  destruct (length (collection d "product") =? 0)%nat;
    [|unfold ret, emit; now rewrite Hdb].
  unfold bind, db_getitem, insert_many, ret, emit, seed_events.
  cbn [db log]. rewrite Hdb. cbn [db log].
  now rewrite <- app_assoc.
Qed.

Lemma seed_products_down w :
  db w = None -> seed_products w = (inl StoreUnavailable, w).
Proof.
  intros Hdb. unfold seed_products, all_to_500, try_except.
  unfold bind at 1, db_is_None. now rewrite Hdb.
Qed.

Lemma collection_store_insert d name docs :
  collection (store_insert d name docs) name =
  (collection d name ++ fst (assign_ids docs (oid_counter d)))%list.
Proof.
  unfold store_insert. destruct (assign_ids docs (oid_counter d)) as [docs1 n1].
  unfold collection at 1. cbn. now rewrite lookup_insert_eq.
Qed.

Lemma collection_store_insert_other d name docs other :
  other <> name ->
  collection (store_insert d name docs) other = collection d other.
Proof.
  intros Hne. unfold store_insert.
  destruct (assign_ids docs (oid_counter d)) as [docs1 n1].
  unfold collection. cbn. now rewrite lookup_insert_ne.
Qed.

(** The seeded documents are the dataset, each with an identifier. *)
Lemma seeded_dataset n :
  map without_id (seeded n) = products /\
  length (seeded n) = length products /\
  Forall (fun doc => Dict.contains "_id" doc = true) (seeded n).
Proof.
  split; [reflexivity|]. split; [reflexivity|].
  repeat constructor.
Qed.

(** C1.  Seeding is guarded by an emptiness check.  On an available store
    with an empty product collection the whole dataset is inserted, once,
    and the response is the dictionary with [inserted] equal to the size
    of the dataset and [status] equal to [seeded]; on a non-empty
    collection nothing is written and the response is the dictionary with
    [inserted] equal to 0 and [status] equal to [already-seeded].  A
    second request after a first one on an empty collection therefore
    answers [already-seeded] with 0 and leaves the store as the first one
    left it. *)
Theorem seed_products_idempotent d w :
  db w = Some d ->
  (collection d "product" = [] ->
   let w1 := snd (seed_products w) in
   let d1 := store_insert d "product" products in
   seed_products w =
   (inr (VDict [("inserted", VInt (Z.of_nat (length products)));
                ("status", VStr "seeded")]),
    {| db := Some d1; log := (log w ++ seed_events)%list |}) /\
   collection d1 "product" = seeded (oid_counter d) /\
   map without_id (collection d1 "product") = products /\
   length (collection d1 "product") = length products /\
   seed_products w1 =
   (inr (VDict [("inserted", VInt 0); ("status", VStr "already-seeded")]),
    {| db := Some d1; log := (log w1 ++ skip_events)%list |})) /\
  (collection d "product" <> [] ->
   seed_products w =
   (inr (VDict [("inserted", VInt 0); ("status", VStr "already-seeded")]),
    {| db := db w; log := (log w ++ skip_events)%list |})).
Proof.
  intros Hdb. split.
  - intros Hempty w1 d1.
    assert (Hfirst : seed_products w =
              (inr (VDict [("inserted", VInt (Z.of_nat (length products)));
                           ("status", VStr "seeded")]),
               {| db := Some d1; log := (log w ++ seed_events)%list |})).
    { rewrite (seed_products_run d) by assumption. now rewrite Hempty. }
    assert (Hcoll : collection d1 "product" = seeded (oid_counter d)).
    { unfold d1. rewrite collection_store_insert. now rewrite Hempty. }
    split; [exact Hfirst|]. split; [exact Hcoll|].
    split; [rewrite Hcoll; apply seeded_dataset|].
    split; [rewrite Hcoll; apply seeded_dataset|].
    subst w1. rewrite Hfirst. cbn [snd].
    rewrite (seed_products_run d1) by reflexivity.
    now rewrite Hcoll.
  - intros Hfull. rewrite (seed_products_run d) by assumption.
    destruct (collection d "product"); [congruence | reflexivity].
Qed.

Lemma seed_products_idempotent_witness :
  (fst (seed_products world_empty) =
   inr (VDict [("inserted", VInt 4); ("status", VStr "seeded")]) /\
   option_map (fun d => map without_id (collection d "product"))
     (db (snd (seed_products world_empty))) = Some products /\
   option_map (fun d => length (collection d "product"))
     (db (snd (seed_products world_empty))) = Some 4 /\
   fst (seed_products (snd (seed_products world_empty))) =
   inr (VDict [("inserted", VInt 0); ("status", VStr "already-seeded")]) /\
   db (snd (seed_products (snd (seed_products world_empty)))) =
   db (snd (seed_products world_empty))) /\
  seed_products world_mug =
  (inr (VDict [("inserted", VInt 0); ("status", VStr "already-seeded")]),
   {| db := Some db_mug; log := skip_events |}).
Proof.
  split.
  - destruct (proj1 (seed_products_idempotent db_empty world_empty eq_refl)
                eq_refl) as (H1 & H2 & H3 & H4 & H5).
    rewrite H5, H1. cbn [fst snd db option_map]. rewrite H3, H4.
    repeat split.
  - apply (proj2 (seed_products_idempotent db_mug world_mug eq_refl)).
    discriminate.
Defined.

(** ** Listing products *)

Lemma list_products_run category limit w :
  list_products category limit w =
  match db w with
  | Some d =>
      (inr (VList
              (map (fun doc => doc_value (serialize_doc (Some doc)))
                 (take (Z.to_nat limit)
                    (List.filter (matches (category_filter category))
                       (collection d "product"))))),
       emit (EFind "product" (category_filter category) limit) w)
  | None => (inl StoreUnavailable, w)
  end.
Proof.
  unfold list_products, all_to_500, try_except, bind, get_documents.
  now destruct (db w).
Qed.

(** C10.  An empty-string category is no filter: the filter mapping is
    empty, the request is the one made without a category, and on an
    available store the response is the serialized form of the first
    [limit] products of the whole collection. *)
Theorem list_products_empty_category limit w :
  category_filter (Some "") = [] /\
  list_products (Some "") limit w = list_products None limit w /\
  fst (list_products (Some "") limit w) =
  match db w with
  | Some d =>
      inr (VList
             (map (fun doc => doc_value (serialize_doc (Some doc)))
                (take (Z.to_nat limit) (collection d "product"))))
  | None => inl StoreUnavailable
  end.
Proof.
  split; [reflexivity|]. split; [reflexivity|].
  rewrite list_products_run. cbn [category_filter String.length Nat.eqb].
  destruct (db w) as [d|]; [|reflexivity].
  now rewrite filter_matches_all.
Qed.

(** With an empty-string category a product of category [Home] is listed;
    a category that no product has lists nothing. *)
Example list_products_empty_category_mug :
  fst (list_products (Some "") 50 world_mug) =
  inr (VList [doc_value (serialize_doc (Some mug))]) /\
  fst (list_products (Some "Toys") 50 world_mug) = inr (VList []).
Proof. split; reflexivity. Qed.

(** ** The diagnostic endpoint *)

(** C9.  The diagnostic endpoint reports whether the store is connected
    and whether [DATABASE_URL] and [DATABASE_NAME] are set, never their
    values: the two configuration fields are one of two fixed texts, so
    two runs in which the same variables are set report the same fields
    whatever the values and whatever the handle, and with the same handle
    the whole response is the same. *)
Theorem test_database_hides_values db1 db2 env1 env2 :
  Health.is_set env1 "DATABASE_URL" = Health.is_set env2 "DATABASE_URL" ->
  Health.is_set env1 "DATABASE_NAME" = Health.is_set env2 "DATABASE_NAME" ->
  Dict.get "database_url" (Health.test_database db1 env1) =
  Dict.get "database_url" (Health.test_database db2 env2) /\
  Dict.get "database_name" (Health.test_database db1 env1) =
  Dict.get "database_name" (Health.test_database db2 env2) /\
  Dict.get "database_url" (Health.test_database db1 env1) =
  Some (VStr (if Health.is_set env1 "DATABASE_URL"
              then "✅ Set" else "❌ Not Set")) /\
  Dict.get "database_name" (Health.test_database db1 env1) =
  Some (VStr (if Health.is_set env1 "DATABASE_NAME"
              then "✅ Set" else "❌ Not Set")) /\
  Dict.get "connection_status" (Health.test_database db1 env1) =
  Some (VStr (match db1 with
              | Some _ => "Connected"
              | None => "Not Connected"
              end)) /\
  Health.test_database db1 env1 = Health.test_database db1 env2.
Proof.
  intros Hurl Hname. unfold Health.test_database, Health.is_set in *.
  rewrite <- Hurl, <- Hname.
  destruct db1 as [[n1 [e1|c1]]|], db2 as [[n2 [e2|c2]]|];
    repeat split; reflexivity.
Qed.

Lemma test_database_hides_values_witness :
  Dict.get "database_url" (Health.test_database (Some handle_shop) env_alpha) =
  Dict.get "database_url" (Health.test_database (Some handle_lost) env_beta) /\
  Dict.get "database_name" (Health.test_database (Some handle_shop) env_alpha) =
  Dict.get "database_name" (Health.test_database (Some handle_lost) env_beta) /\
  Dict.get "database_url" (Health.test_database (Some handle_shop) env_alpha) =
  Some (VStr "✅ Set") /\
  Dict.get "database_name" (Health.test_database (Some handle_shop) env_alpha) =
  Some (VStr "❌ Not Set") /\
  Dict.get "connection_status" (Health.test_database (Some handle_shop) env_alpha) =
  Some (VStr "Connected") /\
  Health.test_database (Some handle_shop) env_alpha =
  Health.test_database (Some handle_shop) env_beta.
Proof.
  exact (test_database_hides_values (Some handle_shop) (Some handle_lost)
           env_alpha env_beta eq_refl eq_refl).
Defined.

(** ** Serialization *)

Lemma Dict_get_remove_eq k d : Dict.get k (Dict.remove k d) = None.
Proof.
  induction d as [|[k1 v1] d IH]; [reflexivity|]. cbn.
  destruct (String.eqb k k1) eqn:Hk; [exact IH|]. cbn. now rewrite Hk.
Qed.

Lemma Dict_get_remove_ne k j d :
  j <> k -> Dict.get j (Dict.remove k d) = Dict.get j d.
Proof.
  intros Hne. induction d as [|[k1 v1] d IH]; [reflexivity|]. cbn.
  destruct (String.eqb_spec k k1) as [<-|Hk].
  - rewrite IH. now destruct (String.eqb_spec j k).
  - cbn. now rewrite IH.
Qed.

Lemma Dict_get_set_eq k v d : Dict.get k (Dict.set k v d) = Some v.
Proof.
  induction d as [|[k1 v1] d IH]; cbn.
  - now rewrite String.eqb_refl.
  - destruct (String.eqb k k1) eqn:Hk; cbn; now rewrite Hk.
Qed.

Lemma Dict_get_set_ne k j v d :
  j <> k -> Dict.get j (Dict.set k v d) = Dict.get j d.
Proof.
  intros Hne. induction d as [|[k1 v1] d IH]; cbn.
  - now destruct (String.eqb_spec j k).
  - destruct (String.eqb_spec k k1) as [<-|Hk]; cbn.
    + destruct (String.eqb_spec j k); [congruence|].
      now apply Dict_get_remove_ne.
    + now rewrite IH.
Qed.

(** The result of [serialize_doc] on a dictionary, in one expression. *)
Lemma serialize_doc_Some d :
  serialize_doc (Some d) =
  Some match Dict.get "_id" d with
       | Some v => Dict.set "id" (VStr (py_str v)) (Dict.remove "_id" d)
       | None => d
       end.
Proof.
  unfold serialize_doc, Dict.contains, Dict.pop.
  destruct d as [|p d]; [reflexivity|]. cbn [Dict.truthy negb].
  now destruct (Dict.get "_id" (p :: d)).
Qed.

(** C4.  The output of [serialize_doc] on a document never holds the
    internal identifier field [_id]; when the document had one, the output
    holds the public field [id] with the encoded (string) form of that
    identifier; every other field is as in the document, and a document
    without [_id] is returned as it is. *)
Theorem serialize_doc_public_id d :
  exists out,
    serialize_doc (Some d) = Some out /\
    Dict.get "_id" out = None /\
    (forall v, Dict.get "_id" d = Some v ->
               Dict.get "id" out = Some (VStr (py_str v))) /\
    (forall o, Dict.get "_id" d = Some (VObjectId o) ->
               Dict.get "id" out = Some (VStr (ObjectId_str o))) /\
    (forall k, k <> "_id" -> k <> "id" -> Dict.get k out = Dict.get k d) /\
    (Dict.get "_id" d = None -> out = d).
Proof.
  rewrite serialize_doc_Some. eexists. split; [reflexivity|].
  destruct (Dict.get "_id" d) as [v|] eqn:Hid.
  - split; [|split; [|split; [|split]]].
    + rewrite Dict_get_set_ne by discriminate. apply Dict_get_remove_eq.
    + intros v1 [= <-]. apply Dict_get_set_eq.
    + intros o [= ->]. apply Dict_get_set_eq.
    + intros k Hk1 Hk2.
      now rewrite Dict_get_set_ne, Dict_get_remove_ne.
    + discriminate.
  - repeat split; try discriminate; auto.
Qed.

Lemma serialize_doc_public_id_witness :
  serialize_doc (Some mug) =
  Some [("title", VStr "Mug"); ("price", VFloat "349.0");
        ("category", VStr "Home"); ("in_stock", VBool true);
        ("id", VStr id_mug)] /\
  Dict.get "id" (default [] (serialize_doc (Some mug))) = Some (VStr id_mug) /\
  Dict.get "title" (default [] (serialize_doc (Some mug))) =
  Dict.get "title" mug.
Proof.
  destruct (serialize_doc_public_id mug) as (out & Hout & _ & _ & Hid & Hk & _).
  rewrite Hout. cbn [default]. split; [|split].
  - f_equal. injection Hout as <-. reflexivity.
  - apply (Hid (ObjectId_new 0)). reflexivity.
  - apply Hk; discriminate.
Defined.

(** ** Serialization on the heap *)

Lemma fresh_loc_unused (h : gmap positive dict) : h !! fresh (dom h) = None.
Proof. apply not_elem_of_dom, is_fresh. Qed.

(** The run of [serialize_doc] on a reference to an object: a falsy
    dictionary comes back as the same reference on the same heap; for any
    other the result is a new object and no existing object changes. *)
Lemma Ref_serialize_doc_run (h : gmap positive dict) l d :
  h !! l = Some d ->
  Ref.serialize_doc (Some l) h =
  if negb (Dict.truthy d) then Some (Some l, h)
  else
    Some (Some (fresh (dom h)),
          <[fresh (dom h) :=
              match Dict.get "_id" d with
              | Some v => Dict.set "id" (VStr (py_str v)) (Dict.remove "_id" d)
              | None => d
              end]> h).
Proof.
  intros Hl.
  cbv [Ref.serialize_doc Ref.falsy Ref.hbind Ref.load Ref.hret Ref.dict_copy
       Ref.contains Ref.pop Ref.setitem Ref.store Ref.hfail
       Dict.contains Dict.pop].
  rewrite Hl. cbv beta iota.
  destruct (negb (Dict.truthy d)); [reflexivity|].
  cbv beta iota zeta.
  repeat (first [rewrite Hl | rewrite lookup_insert_eq]; cbv beta iota).
  destruct (Dict.get "_id" d) as [v|] eqn:Hid; [|reflexivity].
  cbv beta iota.
  repeat (first [rewrite Hid | rewrite lookup_insert_eq]; cbv beta iota).
  now rewrite !insert_insert_eq.
Qed.

(** C5.  [serialize_doc] does not mutate its input.  Called on [None] or
    on a reference to an object, it returns; every object of the heap,
    the argument among them, is afterwards what it was before; the result
    holds the serialized form of the argument; and [None] or an empty
    dictionary comes back as it is, on an unchanged heap. *)
Theorem serialize_doc_no_mutation (h : gmap positive dict) doc :
  Ref.valid h doc ->
  exists out h1,
    Ref.serialize_doc doc h = Some (out, h1) /\
    (forall l d, h !! l = Some d -> h1 !! l = Some d) /\
    Ref.deref h1 out = serialize_doc (Ref.deref h doc) /\
    (truthy_doc (Ref.deref h doc) = false -> out = doc /\ h1 = h).
Proof.
  destruct doc as [l|]; cbn [Ref.valid Ref.deref].
  - intros [d Hl]. rewrite (Ref_serialize_doc_run h l d Hl), Hl.
    rewrite serialize_doc_Some. cbn [truthy_doc].
    destruct (Dict.truthy d) eqn:Ht; cbn [negb].
    + eexists _, _. split; [reflexivity|]. split; [|split].
      * intros l0 d0 Hl0. rewrite lookup_insert_ne; [assumption|].
        intros <-. now rewrite fresh_loc_unused in Hl0.
      * cbn [Ref.deref]. now rewrite lookup_insert_eq.
      * discriminate.
    + eexists _, _. split; [reflexivity|]. split; [auto|]. split; [|auto].
      cbn [Ref.deref]. rewrite Hl. now destruct d.
  - intros _. exists None, h. now cbn.
Qed.

Lemma serialize_doc_no_mutation_witness :
  exists out h1,
    Ref.serialize_doc (Some 1%positive) {[1%positive := mug]} = Some (out, h1) /\
    h1 !! 1%positive = Some mug /\
    Ref.deref h1 out = serialize_doc (Some mug).
Proof.
  destruct (serialize_doc_no_mutation {[1%positive := mug]} (Some 1%positive))
    as (out & h1 & Hrun & Hframe & Hout & _).
  - exists mug. reflexivity.
  - exists out, h1. split; [exact Hrun|]. split; [|exact Hout].
    apply Hframe. reflexivity.
Defined.

(** * Further properties *)

(** ** Serialization, continued *)

(** X1.  [serialize_doc] is idempotent: serializing a serialized document
    changes nothing. *)
Theorem serialize_doc_idempotent doc :
  serialize_doc (serialize_doc doc) = serialize_doc doc.
Proof.
  destruct doc as [d|]; [|reflexivity].
  rewrite serialize_doc_Some.
  destruct (Dict.get "_id" d) as [v|] eqn:Hid.
  - rewrite serialize_doc_Some.
    rewrite Dict_get_set_ne by discriminate.
    now rewrite Dict_get_remove_eq.
  - rewrite serialize_doc_Some. now rewrite Hid.
Qed.

(** X2.  On a non-empty dictionary [serialize_doc] returns a reference to
    a newly allocated object: it is not the argument and not any object
    that existed, the heap gains exactly that object, and the argument
    still holds what it held. *)
Theorem Ref_serialize_doc_fresh (h : gmap positive dict) l d :
  h !! l = Some d ->
  Dict.truthy d = true ->
  exists l1 h1,
    Ref.serialize_doc (Some l) h = Some (Some l1, h1) /\
    h !! l1 = None /\
    l1 <> l /\
    h1 !! l = Some d /\
    dom h1 = {[l1]} ∪ dom h.
Proof.
  intros Hl Ht. rewrite (Ref_serialize_doc_run h l d Hl), Ht. cbn [negb].
  eexists _, _. split; [reflexivity|].
  assert (Hfresh : h !! fresh (dom h) = None) by apply fresh_loc_unused.
  assert (Hne : fresh (dom h) <> l)
    by (intros Heq; rewrite Heq in Hfresh; congruence).
  repeat split; auto.
  - now rewrite lookup_insert_ne.
  - apply dom_insert_L.
Qed.

Lemma Ref_serialize_doc_fresh_witness :
  exists l1 h1,
    Ref.serialize_doc (Some 1%positive) {[1%positive := mug]} =
      Some (Some l1, h1) /\
    ({[1%positive := mug]} : gmap positive dict) !! l1 = None /\
    l1 <> 1%positive /\
    h1 !! 1%positive = Some mug /\
    dom h1 = {[l1]} ∪ dom ({[1%positive := mug]} : gmap positive dict).
Proof.
  apply (Ref_serialize_doc_fresh {[1%positive := mug]} 1%positive mug);
    reflexivity.
Defined.

(** ** Lookup of a product, continued *)

Lemma matches_id_get oid doc :
  matches [("_id", VObjectId oid)] doc = true ->
  Dict.get "_id" doc = Some (VObjectId oid).
Proof.
  unfold matches. cbn [forallb]. rewrite andb_true_r.
  destruct (Dict.get "_id" doc) as [w|]; [|discriminate].
  destruct w; try discriminate. cbn [value_eqb].
  intros Heq. apply bool_decide_eq_true in Heq. now subst.
Qed.

Lemma lookup_product_id d oid doc :
  lookup_product d oid = Some doc ->
  Dict.get "_id" doc = Some (VObjectId oid) /\ In doc (collection d "product").
Proof.
  unfold lookup_product. intros Hhead.
  apply head_Some_elem_of, list_elem_of_In, filter_In in Hhead as [Hin Hm].
  split; [now apply matches_id_get | exact Hin].
Qed.

(** X3.  A lookup that finds a product answers with that stored product,
    its [_id] replaced by the field [id] holding the canonical text of the
    requested identifier; one [find_one] is sent and the store is left as
    it was. *)
Theorem get_product_found_id d w pid oid doc :
  db w = Some d ->
  ObjectId_of_str pid = inr oid ->
  lookup_product d oid = Some doc ->
  let out := Dict.set "id" (VStr (ObjectId_str oid)) (Dict.remove "_id" doc) in
  get_product pid w =
  (inr (VDict out),
   {| db := db w;
      log := (log w ++ [EFindOne "product" [("_id", VObjectId oid)]])%list |})
  /\ In doc (collection d "product")
  /\ Dict.get "_id" out = None
  /\ Dict.get "id" out = Some (VStr (ObjectId_str oid))
  /\ forall k, k <> "_id" -> k <> "id" -> Dict.get k out = Dict.get k doc.
Proof.
  intros Hdb Hoid Hdoc out.
  destruct (lookup_product_id _ _ _ Hdoc) as [Hid Hin].
  split; [|split; [exact Hin|split; [|split]]].
  - rewrite (get_product_run d) by assumption. rewrite Hoid, Hdoc.
    cbn zeta. cbn [truthy_doc]. rewrite (lookup_product_truthy _ _ _ Hdoc).
    rewrite serialize_doc_Some, Hid. reflexivity.
  - unfold out. rewrite Dict_get_set_ne by discriminate.
    apply Dict_get_remove_eq.
  - apply Dict_get_set_eq.
  - intros k Hk1 Hk2. unfold out.
    now rewrite Dict_get_set_ne, Dict_get_remove_ne.
Qed.

Lemma get_product_found_id_witness :
  get_product id_mug world_mug =
  (inr (VDict [("title", VStr "Mug"); ("price", VFloat "349.0");
               ("category", VStr "Home"); ("in_stock", VBool true);
               ("id", VStr id_mug)]),
   {| db := Some db_mug;
      log := [EFindOne "product" [("_id", VObjectId (ObjectId_new 0))]] |}).
Proof.
  exact (proj1 (get_product_found_id db_mug world_mug id_mug (ObjectId_new 0)
                  mug eq_refl eq_refl eq_refl)).
Defined.

(** X4.  The outcomes of a lookup: a value, NotFound, or an internal
    error; NotFound only when the store is available and the identifier is
    well-formed and matches no product. *)
Theorem get_product_outcomes pid w e :
  fst (get_product pid w) = inl e ->
  (e = NotFound /\
   exists d oid, db w = Some d /\ ObjectId_of_str pid = inr oid /\
                 id_shaped pid = true /\ lookup_product d oid = None) \/
  (exists detail, e = HTTPException 500 detail).
Proof.
  destruct (db w) as [d|] eqn:Hdb.
  - rewrite (get_product_run d) by assumption.
    destruct (id_shaped pid) eqn:Hs.
    + destruct (ObjectId_wellformed _ Hs) as (oid & Hoid & _).
      rewrite Hoid. cbn zeta.
      destruct (lookup_product d oid) as [doc|] eqn:Hdoc.
      * cbn [truthy_doc]. rewrite (lookup_product_truthy _ _ _ Hdoc).
        discriminate.
      * cbn. intros [= <-]. left. split; [reflexivity|]. now exists d, oid.
    + rewrite (ObjectId_malformed _ Hs). cbn. intros [= <-]. right. eauto.
  - rewrite get_product_down by assumption. cbn. intros [= <-]. right.
    unfold StoreUnavailable. eauto.
Qed.

Lemma get_product_outcomes_witness :
  (NotFound = NotFound /\
   exists d oid, db world_mug = Some d /\ ObjectId_of_str id_absent = inr oid /\
                 id_shaped id_absent = true /\ lookup_product d oid = None) \/
  (exists detail, NotFound = HTTPException 500 detail).
Proof.
  exact (get_product_outcomes id_absent world_mug NotFound eq_refl).
Defined.

(** ** Runs of the remaining handlers *)

Lemma list_orders_run limit w :
  list_orders limit w =
  match db w with
  | Some d =>
      (inr (VList
              (map (fun doc => doc_value (serialize_doc (Some doc)))
                 (take (Z.to_nat limit) (collection d "order")))),
       emit (EFind "order" [] limit) w)
  | None => (inl StoreUnavailable, w)
  end.
Proof.
  unfold list_orders, all_to_500, try_except, bind, get_documents.
  destruct (db w); [|reflexivity]. now rewrite filter_matches_all.
Qed.

Lemma create_product_run p w :
  create_product p w =
  match db w with
  | Some d =>
      (inr (VDict [("id", VObjectId (ObjectId_new (oid_counter d)))]),
       {| db := Some (with_product d p);
          log := (log w ++ [EInsertOne "product" (product_doc p)])%list |})
  | None => (inl StoreUnavailable, w)
  end.
Proof.
  unfold create_product, all_to_500, try_except, bind, create_document.
  now destruct (db w).
Qed.

Lemma collection_with_product d p :
  collection (with_product d p) "product" =
  (collection d "product" ++
   [("_id", VObjectId (ObjectId_new (oid_counter d))) :: product_doc p])%list.
Proof.
  unfold collection at 1, with_product. cbn. now rewrite lookup_insert_eq.
Qed.

Lemma collection_with_product_other d p name :
  name <> "product" ->
  collection (with_product d p) name = collection d name.
Proof.
  intros Hne. unfold collection, with_product. cbn.
  now rewrite lookup_insert_ne.
Qed.

Lemma read_only_refl w : read_only w w.
Proof.
  split; [reflexivity|]. exists []. rewrite app_nil_r. cbn. auto.
Qed.

Lemma read_only_emit e w : is_write e = false -> read_only w (emit e w).
Proof.
  intros He. split; [reflexivity|]. exists [e]. cbn. rewrite He. auto.
Qed.

(** X5.  The reading handlers never write: whatever the arguments and the
    store, [get_product], [list_products] and [list_orders] leave the store
    as it was and send it at most one operation, a read. *)
Theorem readers_read_only pid category limit w :
  read_only w (snd (get_product pid w)) /\
  read_only w (snd (list_products category limit w)) /\
  read_only w (snd (list_orders limit w)).
Proof.
  split; [|split].
  - destruct (db w) as [d|] eqn:Hdb.
    + rewrite (get_product_run d) by assumption.
      destruct (ObjectId_of_str pid) as [e|oid]; [apply read_only_refl|].
      cbn zeta. destruct (truthy_doc (lookup_product d oid));
        now apply read_only_emit.
    + rewrite get_product_down by assumption. apply read_only_refl.
  - rewrite list_products_run.
    destruct (db w); [now apply read_only_emit | apply read_only_refl].
  - rewrite list_orders_run.
    destruct (db w); [now apply read_only_emit | apply read_only_refl].
Qed.

(** X6.  Without a database connection every handler that touches the
    store fails with HTTP 500 and sends nothing to the store.  The guarded
    handlers [get_product] and [seed_products] answer "Database not
    available"; [create_order] has no guard, and on a non-empty order it
    answers the text of the [TypeError] raised by [db["product"]]. *)
Theorem handlers_store_down w pid category limit p o :
  db w = None ->
  get_product pid w =
  (inl (HTTPException 500 "Database not available"), w) /\
  seed_products w =
  (inl (HTTPException 500 "Database not available"), w) /\
  (items o <> [] ->
   create_order o w =
   (inl (HTTPException 500 "'NoneType' object is not subscriptable"), w)) /\
  (status_of (fst (create_order o w)) = 500%Z /\
   snd (create_order o w) = w) /\
  (status_of (fst (list_products category limit w)) = 500%Z /\
   snd (list_products category limit w) = w) /\
  (status_of (fst (list_orders limit w)) = 500%Z /\
   snd (list_orders limit w) = w) /\
  (status_of (fst (create_product p w)) = 500%Z /\
   snd (create_product p w) = w).
Proof.
  intros Hdb. split; [now apply get_product_down|].
  split; [now apply seed_products_down|].
  rewrite create_order_down by assumption.
  split; [now destruct (items o)|]. split; [now split|].
  rewrite list_products_run, list_orders_run, create_product_run, Hdb.
  now repeat split.
Qed.

Lemma handlers_store_down_witness :
  get_product id_mug world_down =
  (inl (HTTPException 500 "Database not available"), world_down) /\
  seed_products world_down =
  (inl (HTTPException 500 "Database not available"), world_down) /\
  create_order order_mug world_down =
  (inl (HTTPException 500 "'NoneType' object is not subscriptable"),
   world_down) /\
  status_of (fst (list_products None 50 world_down)) = 500%Z /\
  status_of (fst (create_product lamp world_down)) = 500%Z.
Proof.
  destruct (handlers_store_down world_down id_mug None 50%Z lamp order_mug
              eq_refl) as (H1 & H2 & H3 & _ & [H4 _] & _ & [H5 _]).
  split; [exact H1|]. split; [exact H2|].
  split; [apply H3; discriminate|]. split; [exact H4 | exact H5].
Defined.

(** ** Validation of orders, continued *)

(** X7.  The failures of [create_order] are HTTP 400 or HTTP 500, and a
    400 always names a [product_id] of the order: one that is well-formed,
    matches no product of the store, and is preceded only by line items
    that resolve. *)
Theorem create_order_outcomes o w e :
  fst (create_order o w) = inl e ->
  (exists d pre bad post,
     db w = Some d /\
     items o = (pre ++ bad :: post)%list /\
     all_resolve d pre = true /\
     id_shaped (product_id bad) = true /\
     resolves d (product_id bad) = false /\
     e = HTTPException 400 ("Invalid product ID: " +:+ product_id bad)) \/
  (exists detail, e = HTTPException 500 detail).
Proof.
  destruct (db w) as [d|] eqn:Hdb.
  - destruct (first_unresolved d (items o))
      as [Hall | (pre & bad & post & Hits & Hpre & Hbad)].
    + rewrite (create_order_pass d) by assumption. discriminate.
    + rewrite (create_order_stop d o w pre bad post) by assumption.
      cbn [fst]. destruct (id_shaped (product_id bad)) eqn:Hs;
        intros [= <-].
      * left. exists d, pre, bad, post. repeat split; auto.
      * right. unfold MalformedIdentifier. eauto.
  - rewrite create_order_down by assumption. intros [= <-]. right. eauto.
Qed.

Lemma create_order_outcomes_witness :
  (exists d pre bad post,
     db world_mug = Some d /\
     items order_stale = (pre ++ bad :: post)%list /\
     all_resolve d pre = true /\
     id_shaped (product_id bad) = true /\
     resolves d (product_id bad) = false /\
     InvalidReference id_absent =
     HTTPException 400 ("Invalid product ID: " +:+ product_id bad)) \/
  (exists detail, InvalidReference id_absent = HTTPException 500 detail).
Proof.
  exact (create_order_outcomes order_stale world_mug
           (InvalidReference id_absent) eq_refl).
Defined.

Lemma check_items_ids its1 : forall its2 w,
  map product_id its1 = map product_id its2 ->
  check_items its1 w = check_items its2 w.
Proof.
  induction its1 as [|i1 its1 IH]; intros [|i2 its2] w Hmap;
    try discriminate; [reflexivity|].
  cbn [map] in Hmap. injection Hmap as Hpid Hrest.
  destruct (db w) as [d|] eqn:Hdb.
  - rewrite !(check_items_cons _ _ _ d Hdb), Hpid.
    destruct (ObjectId_of_str (product_id i2)); [reflexivity|].
    cbn zeta. now rewrite (IH its2).
  - now rewrite !check_items_down.
Qed.

(** X8.  Validation never looks at quantities: two orders with the same
    product identifiers in the same order are validated alike, whatever
    their quantities (zero and negative ones included), and after an
    accepted order the [order] collection of the store holds, as its last
    document, the line items with their quantities as given. *)
Theorem create_order_ignores_quantity o1 o2 w :
  map product_id (items o1) = map product_id (items o2) ->
  check_items (items o1) w = check_items (items o2) w /\
  fst (create_order o1 w) = fst (create_order o2 w) /\
  (forall d,
     db w = Some d ->
     all_resolve d (items o1) = true ->
     exists d1,
       db (snd (create_order o1 w)) = Some d1 /\
       collection d1 "order" =
       (collection d "order" ++
        [[("_id", VObjectId (ObjectId_new (oid_counter d)));
          ("items",
           VList (map (fun i => VDict [("product_id", VStr (product_id i));
                                       ("quantity", VInt (quantity i))])
                    (items o1)))]])%list).
Proof.
  intros Hmap. split; [now apply check_items_ids|]. split.
  - destruct (db w) as [d|] eqn:Hdb.
    + assert (Hres : forall its1 its2,
                 map product_id its1 = map product_id its2 ->
                 all_resolve d its1 = all_resolve d its2).
      { induction its1 as [|i1 its1 IH]; intros [|i2 its2] H;
          try discriminate; [reflexivity|].
        cbn [map] in H. injection H as Hp Hr.
        unfold all_resolve. cbn [forallb]. rewrite Hp. f_equal.
        exact (IH its2 Hr). }
      destruct (first_unresolved d (items o1))
        as [Hall | (pre & bad & post & Hits & Hpre & Hbad)].
      * rewrite !(create_order_pass d); try assumption; [reflexivity|].
        now rewrite <- (Hres _ _ Hmap).
      * rewrite Hits, map_app in Hmap. symmetry in Hmap.
        apply map_eq_app in Hmap as (pre2 & rest2 & Hits2 & Hpre2 & Hrest2).
        destruct rest2 as [|bad2 post2]; [discriminate|].
        cbn [map] in Hrest2. injection Hrest2 as Hbad2 _.
        rewrite (create_order_stop d o1 w pre bad post) by assumption.
        rewrite (create_order_stop d o2 w pre2 bad2 post2); try assumption.
        -- now rewrite Hbad2.
        -- now rewrite (Hres _ _ Hpre2).
        -- now rewrite Hbad2.
    + rewrite !create_order_down by assumption.
      destruct (items o1), (items o2); try discriminate; reflexivity.
  - intros d Hdb Hall. exists (with_order d o1).
    rewrite (create_order_pass d) by assumption.
    split; [reflexivity|]. apply collection_with_order.
Qed.

Lemma create_order_ignores_quantity_witness :
  check_items [mkOrderItem id_mug (-5)] world_mug =
  check_items [mkOrderItem id_mug 0] world_mug /\
  fst (create_order (mkOrder [mkOrderItem id_mug (-5)]) world_mug) =
  fst (create_order (mkOrder [mkOrderItem id_mug 0]) world_mug) /\
  exists d1,
    db (snd (create_order (mkOrder [mkOrderItem id_mug (-5)]) world_mug)) =
    Some d1 /\
    collection d1 "order" =
    [[("_id", VObjectId (ObjectId_new 1));
      ("items",
       VList [VDict [("product_id", VStr id_mug); ("quantity", VInt (-5))]])]].
Proof.
  destruct (create_order_ignores_quantity
              (mkOrder [mkOrderItem id_mug (-5)])
              (mkOrder [mkOrderItem id_mug 0]) world_mug eq_refl)
    as (H1 & H2 & H3).
  split; [exact H1|]. split; [exact H2|].
  exact (H3 db_mug eq_refl eq_refl).
Defined.

(** ** Listing products, continued *)

Lemma matches_category c doc :
  matches [("category", VStr c)] doc = has_category c doc.
Proof.
  unfold matches, has_category. cbn [forallb]. rewrite andb_true_r.
  destruct (Dict.get "category" doc) as [v|]; [|reflexivity].
  now destruct v.
Qed.

Lemma has_category_get c doc :
  has_category c doc = true -> Dict.get "category" doc = Some (VStr c).
Proof.
  unfold has_category.
  destruct (Dict.get "category" doc) as [v|]; [|discriminate].
  destruct v; try discriminate. intros Heq. apply String.eqb_eq in Heq.
  now subst.
Qed.

(** X9.  Listing with a non-empty category lists only products of that
    category: every element of the response is the serialized form of a
    document of the product collection whose [category] field is exactly
    that text; with a positive limit no more than [limit] are listed; and
    when no more than [limit] products have the category, each of them is
    listed.  Nothing is said of the order. *)
Theorem list_products_category d w c limit :
  db w = Some d ->
  c <> "" ->
  exists sel,
    fst (list_products (Some c) limit w) =
    inr (VList (map (fun doc => doc_value (serialize_doc (Some doc))) sel)) /\
    Forall (fun doc => Dict.get "category" doc = Some (VStr c) /\
                       In doc (collection d "product")) sel /\
    ((0 < limit)%Z -> length sel <= Z.to_nat limit) /\
    (length (List.filter (has_category c) (collection d "product"))
     <= Z.to_nat limit ->
     forall doc,
       In doc (collection d "product") ->
       Dict.get "category" doc = Some (VStr c) ->
       In doc sel).
Proof.
  intros Hdb Hc.
  exists (take (Z.to_nat limit)
            (List.filter (has_category c) (collection d "product"))).
  split; [|split; [|split]].
  - rewrite list_products_run, Hdb. cbn [fst]. unfold category_filter.
    destruct c as [|a c]; [congruence|]. cbn [String.length Nat.eqb].
    do 4 f_equal. apply filter_ext. intros doc. apply matches_category.
  - apply Forall_forall. intros doc Hin.
    apply elem_of_take in Hin as (i & Hi & _).
    apply list_elem_of_lookup_2 in Hi. rewrite list_elem_of_In in Hi.
    apply filter_In in Hi as [Hin Hcat].
    split; [now apply has_category_get | exact Hin].
  - intros _. rewrite length_take. lia.
  - intros Hall doc Hin Hcat. rewrite take_ge by exact Hall.
    apply filter_In. split; [exact Hin|].
    unfold has_category. rewrite Hcat. apply String.eqb_refl.
Qed.

Lemma list_products_category_witness :
  exists sel,
    fst (list_products (Some "Home") 50 world_mug) =
    inr (VList (map (fun doc => doc_value (serialize_doc (Some doc))) sel)) /\
    Forall (fun doc => Dict.get "category" doc = Some (VStr "Home") /\
                       In doc (collection db_mug "product")) sel /\
    length sel <= 50 /\
    In mug sel.
Proof.
  destruct (list_products_category db_mug world_mug "Home" 50%Z eq_refl)
    as (sel & Hresp & Hcat & Hlen & Hall); [discriminate|].
  exists sel. split; [exact Hresp|]. split; [exact Hcat|].
  split; [apply Hlen; reflexivity|].
  apply Hall; [vm_compute; lia | now left | reflexivity].
Defined.

(** ** Creation of a product *)

Lemma length_be_bytes k : forall n, length (be_bytes k n) = k.
Proof.
  induction k as [|k IH]; intros n; [reflexivity|].
  cbn [be_bytes]. rewrite length_app, IH. cbn. lia.
Qed.

Lemma ObjectId_new_native n : native (ObjectId_new n).
Proof. apply length_be_bytes. Qed.

Lemma matches_own_id oid doc :
  matches [("_id", VObjectId oid)] (("_id", VObjectId oid) :: doc) = true.
Proof.
  unfold matches. cbn. now rewrite bool_decide_eq_true_2.
Qed.

(** The product of a fresh identifier is found again by that identifier;
    in any case some product is. *)
Lemma lookup_with_product d p :
  let oid := ObjectId_new (oid_counter d) in
  (lookup_product d oid = None ->
   lookup_product (with_product d p) oid =
   Some (("_id", VObjectId oid) :: product_doc p)) /\
  resolves (with_product d p) (ObjectId_str oid) = true.
Proof.
  intros oid.
  assert (Hl : lookup_product (with_product d p) oid =
               head (List.filter (matches [("_id", VObjectId oid)])
                       (collection d "product") ++
                     [("_id", VObjectId oid) :: product_doc p])%list).
  { unfold lookup_product. rewrite collection_with_product, List.filter_app.
    cbn [List.filter]. fold oid. now rewrite matches_own_id. }
  split.
  - intros Hnone. rewrite Hl. unfold lookup_product in Hnone.
    apply head_None in Hnone. now rewrite Hnone.
  - unfold resolves. rewrite ObjectId_roundtrip by apply ObjectId_new_native.
    destruct (lookup_product (with_product d p) oid) as [doc|] eqn:Hdoc.
    + cbn. eauto using lookup_product_truthy.
    + rewrite Hl in Hdoc.
      now destruct (List.filter (matches [("_id", VObjectId oid)])
                      (collection d "product")).
Qed.

(** X10.  Creating a product makes seeding a no-op: once [create_product]
    has succeeded, [seed_products] finds the collection non-empty, reports
    [already-seeded] with 0 and inserts none of the dataset. *)
Theorem create_product_blocks_seed d w p :
  db w = Some d ->
  let w1 := snd (create_product p w) in
  seed_products w1 =
  (inr (VDict [("inserted", VInt 0); ("status", VStr "already-seeded")]),
   {| db := Some (with_product d p);
      log := (log w ++ [EInsertOne "product" (product_doc p)] ++
              skip_events)%list |}) /\
  collection (with_product d p) "product" =
  (collection d "product" ++
   [("_id", VObjectId (ObjectId_new (oid_counter d))) :: product_doc p])%list.
Proof.
  intros Hdb w1. split; [|apply collection_with_product].
  subst w1. rewrite create_product_run, Hdb. cbn [snd].
  rewrite (seed_products_run (with_product d p)) by reflexivity.
  rewrite collection_with_product, length_app. cbn [length db log].
  replace (length (collection d "product") + 1 =? 0)%nat with false
    by (symmetry; apply Nat.eqb_neq; lia).
  now rewrite <- app_assoc.
Qed.

Lemma create_product_blocks_seed_witness :
  seed_products (snd (create_product lamp world_empty)) =
  (inr (VDict [("inserted", VInt 0); ("status", VStr "already-seeded")]),
   {| db := Some (with_product db_empty lamp);
      log := [EInsertOne "product" (product_doc lamp);
              ECountDocuments "product" []] |}) /\
  collection (with_product db_empty lamp) "product" =
  [("_id", VObjectId (ObjectId_new 0)) :: product_doc lamp].
Proof.
  exact (create_product_blocks_seed db_empty world_empty lamp eq_refl).
Defined.

(** X11.  Insert then lookup.  A product created on an available store is
    returned by [get_product] under the text of the identifier that
    [create_product] answered, with its fields as given followed by that
    [id], provided no product already had the identifier. *)
Theorem create_product_then_get d w p :
  db w = Some d ->
  lookup_product d (ObjectId_new (oid_counter d)) = None ->
  let oid := ObjectId_new (oid_counter d) in
  fst (create_product p w) = inr (VDict [("id", VObjectId oid)]) /\
  fst (get_product (ObjectId_str oid) (snd (create_product p w))) =
  inr (VDict (product_doc p ++ [("id", VStr (ObjectId_str oid))])%list).
Proof.
  intros Hdb Hfresh oid. rewrite create_product_run, Hdb. cbn [fst snd].
  split; [reflexivity|].
  rewrite (get_product_run (with_product d p)) by reflexivity.
  rewrite ObjectId_roundtrip by apply ObjectId_new_native. cbn zeta.
  pose proof (proj1 (lookup_with_product d p) Hfresh) as Hnew.
  fold oid in Hnew. rewrite Hnew. reflexivity.
Qed.

Lemma create_product_then_get_witness :
  fst (create_product lamp world_mug) =
  inr (VDict [("id", VObjectId (ObjectId_new 1))]) /\
  fst (get_product "000000000000000000000001"
         (snd (create_product lamp world_mug))) =
  inr (VDict (product_doc lamp ++
              [("id", VStr "000000000000000000000001")])%list).
Proof.
  exact (create_product_then_get db_mug world_mug lamp eq_refl eq_refl).
Defined.

(** ** Orders, continued *)

Lemma lookup_product_with_order d o oid :
  lookup_product (with_order d o) oid = lookup_product d oid.
Proof.
  unfold lookup_product.
  now rewrite collection_with_order_other by discriminate.
Qed.

Lemma all_resolve_with_order d o its :
  all_resolve (with_order d o) its = all_resolve d its.
Proof.
  unfold all_resolve. induction its as [|i its IH]; [reflexivity|].
  cbn [forallb]. rewrite IH. f_equal. unfold resolves.
  destruct (ObjectId_of_str (product_id i)); [reflexivity|].
  now rewrite lookup_product_with_order.
Qed.

Lemma serialize_order_doc oid o :
  serialize_doc (Some (("_id", VObjectId oid) :: order_doc o)) =
  Some [("items", VList (map item_value (items o)));
        ("id", VStr (ObjectId_str oid))].
Proof. reflexivity. Qed.

(** X12.  Create then list.  After an order was accepted, [list_orders]
    with a limit above the number of stored orders includes the new order,
    with its line items as given and, as [id], the text of the identifier
    that [create_order] answered: the listing is, up to order, the one
    made before the request with that entry added. *)
Theorem create_order_then_list d w o limit :
  db w = Some d ->
  all_resolve d (items o) = true ->
  length (collection d "order") < Z.to_nat limit ->
  let oid := ObjectId_new (oid_counter d) in
  let entry :=
    VDict [("items", VList (map item_value (items o)));
           ("id", VStr (ObjectId_str oid))] in
  fst (create_order o w) = inr (VDict [("id", VObjectId oid)]) /\
  exists before after,
    fst (list_orders limit w) = inr (VList before) /\
    fst (list_orders limit (snd (create_order o w))) = inr (VList after) /\
    In entry after /\
    after ≡ₚ entry :: before.
Proof.
  intros Hdb Hall Hlimit oid entry.
  rewrite (create_order_pass d) by assumption. cbn [fst snd].
  split; [reflexivity|]. rewrite !list_orders_run, Hdb. cbn [db fst].
  rewrite collection_with_order.
  rewrite !take_ge by (rewrite ?length_app; cbn [length]; lia).
  rewrite map_app. cbn [map]. rewrite serialize_order_doc. cbn [doc_value].
  fold oid. fold entry.
  eexists _, _. split; [reflexivity|]. split; [reflexivity|]. split.
  - apply in_or_app. right. now left.
  - symmetry. apply Permutation_cons_append.
Qed.

Lemma create_order_then_list_witness :
  let entry :=
    VDict [("items",
            VList [VDict [("product_id", VStr id_mug);
                          ("quantity", VInt 2)]]);
           ("id", VStr "000000000000000000000001")] in
  fst (create_order order_mug world_mug) =
  inr (VDict [("id", VObjectId (ObjectId_new 1))]) /\
  exists before after,
    fst (list_orders 50 world_mug) = inr (VList before) /\
    fst (list_orders 50 (snd (create_order order_mug world_mug))) =
    inr (VList after) /\
    In entry after /\
    after ≡ₚ entry :: before.
Proof.
  apply (create_order_then_list db_mug world_mug order_mug 50%Z);
    [reflexivity | reflexivity | vm_compute; lia].
Defined.

(** X13.  Orders are not deduplicated.  An accepted order leaves the
    products as they were, so the same order submitted again is accepted
    again and stored a second time under the next identifier. *)
Theorem create_order_twice d w o :
  db w = Some d ->
  all_resolve d (items o) = true ->
  let w1 := snd (create_order o w) in
  let d2 := with_order (with_order d o) o in
  collection (with_order d o) "product" = collection d "product" /\
  create_order o w1 =
  (inr (VDict [("id", VObjectId (ObjectId_new (oid_counter d + 1)))]),
   {| db := Some d2;
      log := (log w1 ++ lookups (items o) ++
              [EInsertOne "order" (order_doc o)])%list |}) /\
  collection d2 "order" =
  (collection d "order" ++
   [("_id", VObjectId (ObjectId_new (oid_counter d))) :: order_doc o;
    ("_id", VObjectId (ObjectId_new (oid_counter d + 1))) :: order_doc o])%list.
Proof.
  intros Hdb Hall w1 d2.
  split; [now apply collection_with_order_other|].
  split.
  - subst w1. rewrite (create_order_pass d o w) by assumption. cbn [snd].
    rewrite (create_order_pass (with_order d o));
      [reflexivity | reflexivity | now rewrite all_resolve_with_order].
  - unfold d2. rewrite !collection_with_order. cbn [with_order oid_counter].
    now rewrite <- app_assoc.
Qed.

Lemma create_order_twice_witness :
  collection (with_order db_mug order_mug) "product" = [mug] /\
  fst (create_order order_mug (snd (create_order order_mug world_mug))) =
  inr (VDict [("id", VObjectId (ObjectId_new 2))]) /\
  collection (with_order (with_order db_mug order_mug) order_mug) "order" =
  [("_id", VObjectId (ObjectId_new 1)) :: order_doc order_mug;
   ("_id", VObjectId (ObjectId_new 2)) :: order_doc order_mug].
Proof.
  destruct (create_order_twice db_mug world_mug order_mug eq_refl eq_refl)
    as (H1 & H2 & H3).
  split; [exact H1|]. split; [now rewrite H2 | exact H3].
Defined.

(** X14.  End to end.  A product created on an available store can be
    ordered at once: an order whose single line item carries the text of
    the identifier that [create_product] answered is accepted, whatever
    the quantity. *)
Theorem create_product_then_order d w p q :
  db w = Some d ->
  let oid := ObjectId_new (oid_counter d) in
  let o := mkOrder [mkOrderItem (ObjectId_str oid) q] in
  fst (create_product p w) = inr (VDict [("id", VObjectId oid)]) /\
  create_order o (snd (create_product p w)) =
  (inr (VDict [("id", VObjectId (ObjectId_new (oid_counter d + 1)))]),
   {| db := Some (with_order (with_product d p) o);
      log := (log w ++ [EInsertOne "product" (product_doc p);
                        EFindOne "product" [("_id", VObjectId oid)];
                        EInsertOne "order" (order_doc o)])%list |}).
Proof.
  intros Hdb oid o. rewrite create_product_run, Hdb. cbn [fst snd].
  split; [reflexivity|]. subst o.
  rewrite (create_order_pass (with_product d p)); [| reflexivity |].
  - unfold lookups. cbn [log items flat_map]. unfold lookup_events.
    cbn [product_id]. subst oid.
    rewrite ObjectId_roundtrip by apply ObjectId_new_native.
    cbn [with_product oid_counter]. now rewrite <- app_assoc.
  - unfold all_resolve. cbn [forallb items product_id]. subst oid.
    now rewrite (proj2 (lookup_with_product d p)).
Qed.

Lemma create_product_then_order_witness :
  fst (create_product lamp world_empty) =
  inr (VDict [("id", VObjectId (ObjectId_new 0))]) /\
  fst (create_order (mkOrder [mkOrderItem "000000000000000000000000" 3])
         (snd (create_product lamp world_empty))) =
  inr (VDict [("id", VObjectId (ObjectId_new 1))]).
Proof.
  destruct (create_product_then_order db_empty world_empty lamp 3 eq_refl)
    as [H1 H2].
  split; [exact H1|]. exact (f_equal fst H2).
Defined.

(** ** Seeding, continued *)

Lemma seeded_listing n :
  map (fun doc => doc_value (serialize_doc (Some doc))) (seeded n) =
  zip_with listed products [n; n + 1; n + 2; n + 3]%N.
Proof.
  unfold seeded, products. cbn [assign_ids].
  unfold assign_id, product. cbn [Dict.contains Dict.get String.eqb Ascii.eqb
    Bool.eqb fst map zip_with].
  rewrite <- !N.add_assoc. reflexivity.
Qed.

(** X15.  Seed then list.  After seeding a store whose product collection
    was empty, listing without a category and with a limit of at least
    four answers, up to order, the four products of the dataset, each with
    its fields followed by the [id] that the store assigned. *)
Theorem seed_products_then_list d w limit :
  db w = Some d ->
  collection d "product" = [] ->
  4 <= Z.to_nat limit ->
  exists vs,
    fst (list_products None limit (snd (seed_products w))) = inr (VList vs) /\
    vs ≡ₚ zip_with listed products
            (let n := oid_counter d in [n; n + 1; n + 2; n + 3]%N).
Proof.
  intros Hdb Hempty Hlimit.
  rewrite (seed_products_run d) by assumption. rewrite Hempty.
  cbn [length Nat.eqb snd].
  rewrite list_products_run. cbn [db fst category_filter].
  rewrite filter_matches_all, collection_store_insert, Hempty. cbn [app].
  fold (seeded (oid_counter d)).
  rewrite take_ge by (rewrite (proj1 (proj2 (seeded_dataset _))); cbn; lia).
  rewrite seeded_listing. eexists. split; reflexivity.
Qed.

Lemma seed_products_then_list_witness :
  exists vs,
    fst (list_products None 50 (snd (seed_products world_empty))) =
    inr (VList vs) /\
    vs ≡ₚ zip_with listed products [0; 1; 2; 3]%N.
Proof.
  apply (seed_products_then_list db_empty world_empty 50%Z);
    [reflexivity | reflexivity | vm_compute; lia].
Defined.

(** X16.  Each writing handler touches its own collection only: seeding
    and the creation of a product leave every collection other than
    [product] as it was, and the creation of an order leaves every
    collection other than [order] as it was. *)
Theorem writers_frame d w p o name :
  db w = Some d ->
  (name <> "product" ->
   (forall d1, db (snd (seed_products w)) = Some d1 ->
               collection d1 name = collection d name) /\
   (forall d1, db (snd (create_product p w)) = Some d1 ->
               collection d1 name = collection d name)) /\
  (name <> "order" ->
   forall d1, db (snd (create_order o w)) = Some d1 ->
              collection d1 name = collection d name).
Proof.
  intros Hdb. split.
  - intros Hne. split; intros d1.
    + rewrite (seed_products_run d) by assumption.
      destruct (length (collection d "product") =? 0)%nat; cbn [snd db].
      * intros [= <-]. now apply collection_store_insert_other.
      * rewrite Hdb. now intros [= <-].
    + rewrite create_product_run, Hdb. cbn [snd db]. intros [= <-].
      now apply collection_with_product_other.
  - intros Hne d1.
    destruct (first_unresolved d (items o))
      as [Hall | (pre & bad & post & Hits & Hpre & Hbad)].
    + rewrite (create_order_pass d) by assumption. cbn [snd db].
      intros [= <-]. now apply collection_with_order_other.
    + rewrite (create_order_stop d o w pre bad post) by assumption.
      cbn [snd db]. rewrite Hdb. now intros [= <-].
Qed.

Lemma writers_frame_witness :
  (forall d1, db (snd (seed_products world_empty)) = Some d1 ->
              collection d1 "order" = collection db_empty "order") /\
  (forall d1, db (snd (create_order order_mug world_mug)) = Some d1 ->
              collection d1 "product" = collection db_mug "product").
Proof.
  split.
  - apply (proj1 (writers_frame db_empty world_empty lamp order_mug "order"
                    eq_refl)). discriminate.
  - apply (proj2 (writers_frame db_mug world_mug lamp order_mug "product"
                    eq_refl)). discriminate.
Defined.

(** ** The diagnostic endpoint, continued *)

Lemma length_substring_le n : forall s, String.length (substring 0 n s) <= n.
Proof.
  induction n as [|n IH]; intros [|c s]; cbn; try lia.
  specialize (IH s). lia.
Qed.

(** X17.  The diagnostic response always has the same six fields in the
    same order, [backend] is always the running text, and [database] is
    one of three texts chosen by the handle: not initialized, connected
    and working, or connected with the first characters of the error of
    [list_collection_names]; the initial text of line 154 is never
    reported. *)
Theorem test_database_shape db env :
  map fst (Health.test_database db env) = health_keys /\
  Dict.get "backend" (Health.test_database db env) =
  Some (VStr "✅ Running") /\
  Dict.get "database" (Health.test_database db env) =
  Some (VStr
          match db with
          | None => "⚠️  Available but not initialized"
          | Some h =>
              match Health.list_collection_names h with
              | inr _ => "✅ Connected & Working"
              | inl e =>
                  "⚠️  Connected but Error: " +:+
                  Health.prefix 50 (exn_str e)
              end
          end) /\
  Dict.get "database" (Health.test_database db env) <>
  Some (VStr "❌ Not Available").
Proof.
  unfold Health.test_database.
  destruct db as [[n [e|c]]|]; (split; [reflexivity|]);
    (split; [reflexivity|]); (split; [reflexivity|]);
    cbn; discriminate.
Qed.

(** X18.  The diagnostic response is bounded.  When the collection names
    can be read, [collections] holds the first ten of them and no more;
    when reading them fails, [database] carries at most fifty characters
    of the error text, [collections] stays empty and the connection is
    still reported as connected. *)
Theorem test_database_bounded h env :
  (forall names,
     Health.list_collection_names h = inr names ->
     Dict.get "collections" (Health.test_database (Some h) env) =
     Some (VList (map VStr (take 10 names))) /\
     length (take 10 names) <= 10) /\
  (forall e,
     Health.list_collection_names h = inl e ->
     Dict.get "database" (Health.test_database (Some h) env) =
     Some (VStr ("⚠️  Connected but Error: " +:+
                 Health.prefix 50 (exn_str e))) /\
     String.length (Health.prefix 50 (exn_str e)) <= 50 /\
     Dict.get "collections" (Health.test_database (Some h) env) =
     Some (VList []) /\
     Dict.get "connection_status" (Health.test_database (Some h) env) =
     Some (VStr "Connected")).
Proof.
  unfold Health.test_database. destruct h as [n r]. cbn [Health.probe
    Health.list_collection_names Health.name]. split.
  - intros names ->. split; [reflexivity|]. rewrite length_take. lia.
  - intros e ->. split; [reflexivity|].
    split; [apply length_substring_le|]. split; reflexivity.
Qed.

Lemma test_database_bounded_witness :
  (Dict.get "collections" (Health.test_database (Some handle_many) env_alpha) =
   Some (VList (map VStr ["a"; "b"; "c"; "d"; "e"; "f"; "g"; "h"; "i"; "j"])) /\
   length (take 10 ["a"; "b"; "c"; "d"; "e"; "f"; "g"; "h"; "i"; "j"; "k"; "l"])
   <= 10) /\
  (Dict.get "database" (Health.test_database (Some handle_lost) env_alpha) =
   Some (VStr ("⚠️  Connected but Error: " +:+
               Health.prefix 50 "connection refused")) /\
   String.length (Health.prefix 50 "connection refused") <= 50 /\
   Dict.get "collections" (Health.test_database (Some handle_lost) env_alpha) =
   Some (VList []) /\
   Dict.get "connection_status"
     (Health.test_database (Some handle_lost) env_alpha) =
   Some (VStr "Connected")).
Proof.
  split.
  - exact (proj1 (test_database_bounded handle_many env_alpha) _ eq_refl).
  - exact (proj2 (test_database_bounded handle_lost env_alpha) _ eq_refl).
Defined.

(** ** Counts and exposure *)

(** X19.  The count that seeding reports is the growth of the product
    collection: on an available store the response is the dictionary of
    [inserted] and [status] with either 0 and [already-seeded] or the size
    of the dataset and [seeded], and the collection afterwards has exactly
    [inserted] documents more than before. *)
Theorem seed_products_count d w :
  db w = Some d ->
  exists n status d1,
    fst (seed_products w) =
    inr (VDict [("inserted", VInt (Z.of_nat n)); ("status", VStr status)]) /\
    db (snd (seed_products w)) = Some d1 /\
    length (collection d1 "product") =
    length (collection d "product") + n /\
    ((n = 0 /\ status = "already-seeded") \/
     (n = length products /\ status = "seeded")).
Proof.
  intros Hdb. rewrite (seed_products_run d) by assumption.
  destruct (length (collection d "product") =? 0)%nat eqn:Hlen.
  - exists (length products), "seeded", (store_insert d "product" products).
    cbn [fst snd db]. split; [reflexivity|]. split; [reflexivity|].
    split; [|now right].
    rewrite collection_store_insert, length_app.
    fold (seeded (oid_counter d)).
    now rewrite (proj1 (proj2 (seeded_dataset (oid_counter d)))).
  - exists 0, "already-seeded", d. cbn [fst snd db].
    split; [reflexivity|]. split; [assumption|]. split; [lia | now left].
Qed.

Lemma seed_products_count_witness :
  exists n status d1,
    fst (seed_products world_empty) =
    inr (VDict [("inserted", VInt (Z.of_nat n)); ("status", VStr status)]) /\
    db (snd (seed_products world_empty)) = Some d1 /\
    length (collection d1 "product") =
    length (collection db_empty "product") + n /\
    ((n = 0 /\ status = "already-seeded") \/
     (n = length products /\ status = "seeded")).
Proof. exact (seed_products_count db_empty world_empty eq_refl). Defined.

Lemma length_lookups d its :
  all_resolve d its = true -> length (lookups its) = length its.
Proof.
  induction its as [|i its IH]; [reflexivity|].
  cbn [all_resolve forallb]. intros Hall.
  apply andb_prop in Hall as [Hi Hrest].
  unfold lookups in *. cbn [flat_map]. rewrite length_app, IH by assumption.
  unfold lookup_events. unfold resolves in Hi.
  now destruct (ObjectId_of_str (product_id i)).
Qed.

(** X20.  An accepted order costs one lookup for each line item, repeated
    product identifiers included, followed by one insertion: nothing is
    cached and nothing else is sent to the store. *)
Theorem create_order_cost d w o :
  db w = Some d ->
  all_resolve d (items o) = true ->
  exists reads,
    log (snd (create_order o w)) =
    (log w ++ reads ++ [EInsertOne "order" (order_doc o)])%list /\
    length reads = length (items o) /\
    existsb is_write reads = false.
Proof.
  intros Hdb Hall. rewrite (create_order_pass d) by assumption.
  exists (lookups (items o)). cbn [snd log].
  split; [reflexivity|]. split; [now apply (length_lookups d)|].
  apply lookups_read.
Qed.

Lemma create_order_cost_witness :
  exists reads,
    log (snd (create_order
                (mkOrder [mkOrderItem id_mug 1; mkOrderItem id_mug 4])
                world_mug)) =
    (log world_mug ++ reads ++
     [EInsertOne "order"
        (order_doc (mkOrder [mkOrderItem id_mug 1; mkOrderItem id_mug 4]))])%list /\
    length reads = 2 /\
    existsb is_write reads = false.
Proof.
  exact (create_order_cost db_mug world_mug
           (mkOrder [mkOrderItem id_mug 1; mkOrderItem id_mug 4])
           eq_refl eq_refl).
Defined.

Lemma serialize_doc_public d : public_doc (doc_value (serialize_doc (Some d))).
Proof.
  rewrite serialize_doc_Some. cbn [doc_value]. eexists. split; [reflexivity|].
  destruct (Dict.get "_id" d) as [v|] eqn:Hid; [|exact Hid].
  rewrite Dict_get_set_ne by discriminate. apply Dict_get_remove_eq.
Qed.

Lemma Forall_public docs :
  Forall public_doc
    (map (fun doc => doc_value (serialize_doc (Some doc))) docs).
Proof.
  induction docs as [|doc docs IH]; constructor; auto.
  apply serialize_doc_public.
Qed.

(** X21.  No response exposes the internal identifier field: every
    element that [list_products] or [list_orders] answers, and the value
    that [get_product] answers, is a document without [_id]. *)
Theorem responses_hide_internal_id category limit pid w :
  (forall vs, fst (list_products category limit w) = inr (VList vs) ->
              Forall public_doc vs) /\
  (forall vs, fst (list_orders limit w) = inr (VList vs) ->
              Forall public_doc vs) /\
  (forall v, fst (get_product pid w) = inr v -> public_doc v).
Proof.
  split; [|split].
  - intros vs. rewrite list_products_run.
    destruct (db w); [|discriminate]. intros [= <-]. apply Forall_public.
  - intros vs. rewrite list_orders_run.
    destruct (db w); [|discriminate]. intros [= <-]. apply Forall_public.
  - intros v. destruct (db w) as [d|] eqn:Hdb.
    + rewrite (get_product_run d) by assumption.
      destruct (ObjectId_of_str pid) as [e|oid]; [discriminate|]. cbn zeta.
      destruct (lookup_product d oid) as [doc|]; [|discriminate].
      destruct (truthy_doc (Some doc)); [|discriminate].
      intros [= <-]. apply serialize_doc_public.
    + rewrite get_product_down by assumption. discriminate.
Qed.

Lemma responses_hide_internal_id_witness :
  Forall public_doc [doc_value (serialize_doc (Some mug))] /\
  public_doc (doc_value (serialize_doc (Some mug))).
Proof.
  split.
  - apply (proj1 (responses_hide_internal_id None 50%Z id_mug world_mug)).
    reflexivity.
  - apply (proj2 (proj2 (responses_hide_internal_id None 50%Z id_mug
                           world_mug))).
    reflexivity.
Defined.
